(** * flytekit.clients.auth.authenticator: the credential flows

    A shallow embedding of [flytekit/clients/auth/authenticator.py] and the
    properties its specification states about it.

    Layout of the development:
    - [Py]: the Python values the module manipulates ([str] as a sequence
      of code points, [bytes], truthiness, [str.strip], [str.join],
      UTF-8 and base64 from the standard library);
    - [Runtime]: exceptions, the outside world (keyring, subprocesses, the
      IdP) and the monad in which methods run;
    - one module per class of the source file;
    - the theorems. *)

From Stdlib Require Import ZArith NArith Lia List Ascii String.
From stdpp Require Import base option list gmap strings pretty.

Local Open Scope N_scope.

(* ===================================================================== *)
(** * Python values *)
(* ===================================================================== *)

Module Py.

(** A Python [str] is a sequence of Unicode code points, a [bytes] object a
    sequence of octets. *)
Definition str := list N.
Definition bytes := list N.

(** String literals of the source file (all of them are ASCII). *)
Definition lit (s : string) : str :=
  map N_of_ascii (list_ascii_of_string s).

(** [bool(s)] for a string: the empty string is falsy. *)
Definition truthy_str (s : str) : bool :=
  match s with [] => false | _ => true end.

(** [bool(x)] for an optional string: [None] and [""] are falsy. *)
Definition truthy_opt_str (o : option str) : bool :=
  match o with Some s => truthy_str s | None => false end.

(** [bool(l)] for a list, and for an optional list. *)
Definition truthy_list {A} (l : list A) : bool :=
  match l with [] => false | _ => true end.

Definition truthy_opt_list {A} (o : option (list A)) : bool :=
  match o with Some l => truthy_list l | None => false end.

(** [str.isspace] on one code point: the characters [str.strip()] removes. *)
Definition isspace (c : N) : bool :=
  ((0x09 <=? c) && (c <=? 0x0D)) || ((0x1C <=? c) && (c <=? 0x20))
  || (c =? 0x85) || (c =? 0xA0) || (c =? 0x1680)
  || ((0x2000 <=? c) && (c <=? 0x200A))
  || (c =? 0x2028) || (c =? 0x2029) || (c =? 0x202F) || (c =? 0x205F)
  || (c =? 0x3000).

Fixpoint lstrip (s : str) : str :=
  match s with
  | c :: s' => if isspace c then lstrip s' else s
  | [] => []
  end.

Definition rstrip (s : str) : str := rev (lstrip (rev s)).

(** [s.strip()] *)
Definition strip (s : str) : str := rstrip (lstrip s).

(** [sep.join(l)] *)
Fixpoint join (sep : str) (l : list str) : str :=
  match l with
  | [] => []
  | [x] => x
  | x :: l' => x ++ sep ++ join sep l'
  end.

(** [str(n)] for an integer. *)
Definition str_of_int (n : Z) : str := lit (pretty n).

(** ** [str.encode("utf-8")] and [bytes.decode("utf-8")] *)

Definition cont (x : N) : N := N.lor 0x80 (N.land x 0x3F).

(** One code point; a surrogate cannot be encoded ([UnicodeEncodeError]),
    and nothing above U+10FFFF is a code point. *)
Definition utf8_encode1 (c : N) : option bytes :=
  if c <? 0x80 then Some [c]
  else if c <? 0x800 then
    Some [N.lor 0xC0 (N.shiftr c 6); cont c]
  else if c <? 0x10000 then
    if (0xD800 <=? c) && (c <=? 0xDFFF) then None
    else Some [N.lor 0xE0 (N.shiftr c 12); cont (N.shiftr c 6); cont c]
  else if c <=? 0x10FFFF then
    Some [N.lor 0xF0 (N.shiftr c 18); cont (N.shiftr c 12);
          cont (N.shiftr c 6); cont c]
  else None.

Fixpoint utf8_encode (s : str) : option bytes :=
  match s with
  | [] => Some []
  | c :: s' =>
      match utf8_encode1 c, utf8_encode s' with
      | Some b, Some bs => Some (b ++ bs)
      | _, _ => None
      end
  end.

Definition is_cont (b : N) : bool := N.land b 0xC0 =? 0x80.
Definition low6 (b : N) : N := N.land b 0x3F.

(** The strict decoder: [None] stands for [UnicodeDecodeError] (a stray or
    missing continuation byte, an overlong form, a surrogate, a value above
    U+10FFFF). *)
Fixpoint utf8_decode (bs : bytes) : option str :=
  match bs with
  | [] => Some []
  | b0 :: r0 =>
      if b0 <? 0x80 then cons b0 <$> utf8_decode r0
      else if (0xC2 <=? b0) && (b0 <=? 0xDF) then
        match r0 with
        | b1 :: r1 =>
            if is_cont b1
            then cons (N.lor (N.shiftl (N.land b0 0x1F) 6) (low6 b1))
                   <$> utf8_decode r1
            else None
        | _ => None
        end
      else if (0xE0 <=? b0) && (b0 <=? 0xEF) then
        match r0 with
        | b1 :: b2 :: r2 =>
            let c := N.lor (N.shiftl (N.land b0 0x0F) 12)
                       (N.lor (N.shiftl (low6 b1) 6) (low6 b2)) in
            if is_cont b1 && is_cont b2 && (0x800 <=? c)
               && negb ((0xD800 <=? c) && (c <=? 0xDFFF))
            then cons c <$> utf8_decode r2
            else None
        | _ => None
        end
      else if (0xF0 <=? b0) && (b0 <=? 0xF4) then
        match r0 with
        | b1 :: b2 :: b3 :: r3 =>
            let c := N.lor (N.shiftl (N.land b0 0x07) 18)
                       (N.lor (N.shiftl (low6 b1) 12)
                          (N.lor (N.shiftl (low6 b2) 6) (low6 b3))) in
            if is_cont b1 && is_cont b2 && is_cont b3
               && (0x10000 <=? c) && (c <=? 0x10FFFF)
            then cons c <$> utf8_decode r3
            else None
        | _ => None
        end
      else None
  end.

(** ** [base64.b64encode] (RFC 4648, section 4) *)

Definition b64_alphabet : str :=
  lit "ABCDEFGHIJKLMNOPQRSTUVWXYZabcdefghijklmnopqrstuvwxyz0123456789+/".

(** The character of a 6-bit value. *)
Definition b64_char (i : N) : N := nth (N.to_nat i) b64_alphabet 0.

Definition b64_pad : N := 61.  (* "=" *)

Fixpoint b64encode (bs : bytes) : bytes :=
  match bs with
  | a :: b :: c :: r =>
      b64_char (N.shiftr a 2)
      :: b64_char (N.lor (N.shiftl (N.land a 3) 4) (N.shiftr b 4))
      :: b64_char (N.lor (N.shiftl (N.land b 15) 2) (N.shiftr c 6))
      :: b64_char (N.land c 63)
      :: b64encode r
  | [a; b] =>
      [b64_char (N.shiftr a 2);
       b64_char (N.lor (N.shiftl (N.land a 3) 4) (N.shiftr b 4));
       b64_char (N.shiftl (N.land b 15) 2);
       b64_pad]
  | [a] =>
      [b64_char (N.shiftr a 2);
       b64_char (N.shiftl (N.land a 3) 4);
       b64_pad; b64_pad]
  | [] => []
  end.

(** The inverse table, and the decoder used to check the encoder against. *)
Definition b64_index (ch : N) : option N :=
  if (65 <=? ch) && (ch <=? 90) then Some (ch - 65)
  else if (97 <=? ch) && (ch <=? 122) then Some (ch - 71)
  else if (48 <=? ch) && (ch <=? 57) then Some (ch + 4)
  else if ch =? 43 then Some 62
  else if ch =? 47 then Some 63
  else None.

Fixpoint b64decode (cs : bytes) : option bytes :=
  match cs with
  | [] => Some []
  | [c0; c1; c2; c3] =>
      i0 ← b64_index c0; i1 ← b64_index c1;
      if c2 =? b64_pad then
        if c3 =? b64_pad
        then Some [N.lor (N.shiftl i0 2) (N.shiftr i1 4)]
        else None
      else
        i2 ← b64_index c2;
        if c3 =? b64_pad
        then Some [N.lor (N.shiftl i0 2) (N.shiftr i1 4);
                   N.lor (N.shiftl (N.land i1 15) 4) (N.shiftr i2 2)]
        else
          i3 ← b64_index c3;
          Some [N.lor (N.shiftl i0 2) (N.shiftr i1 4);
                N.lor (N.shiftl (N.land i1 15) 4) (N.shiftr i2 2);
                N.lor (N.shiftl (N.land i2 3) 6) i3]
  | c0 :: c1 :: c2 :: c3 :: r =>
      i0 ← b64_index c0; i1 ← b64_index c1;
      i2 ← b64_index c2; i3 ← b64_index c3;
      r' ← b64decode r;
      Some (N.lor (N.shiftl i0 2) (N.shiftr i1 4)
            :: N.lor (N.shiftl (N.land i1 15) 4) (N.shiftr i2 2)
            :: N.lor (N.shiftl (N.land i2 3) 6) i3
            :: r')
  | _ => None
  end.

End Py.

(* ===================================================================== *)
(** * The runtime: exceptions, collaborators, the outside world *)
(* ===================================================================== *)

Module Runtime.
Import Py.

(** The exceptions that travel through the module.  [OtherError] stands for
    whatever else a collaborator raises (a connection error, a missing
    executable, ...). *)
Inductive Exception :=
| AuthenticationError (msg : str)
| AccessTokenNotFoundError (msg : str)
| ValueError (msg : str)
| CalledProcessError (cmd : list str) (returncode : Z)
| UnicodeEncodeError
| UnicodeDecodeError
| JSONDecodeError
| TypeError
| KeyError (key : str)
| AttributeError (attr : str)
| OtherError (name msg : str).

Inductive Result (A : Type) :=
| Ok (a : A)
| Raise (e : Exception).
Arguments Ok {A} a.
Arguments Raise {A} e.

Definition is_ok {A} (r : Result A) : bool :=
  match r with Ok _ => true | Raise _ => false end.

(** Modelled from the spec: [Credentials] of [keyring.py], which is not part
    of the sources at hand.  A credential holds one opaque access token and
    its provenance, the endpoint it was issued for, which is the key the
    store files it under.  [Credentials(token)] leaves the endpoint to the
    class's default, see [Env].  An instance is truthy, as plain objects
    are, so [if self._creds] asks whether a credential is there. *)
Record Credentials := mkCredentials {
  access_token : str;
  for_endpoint : str
}.

(** [verify] of the PKCE authenticator: [Optional[Union[bool, str]]]. *)
Inductive Verify := VerifyBool (b : bool) | VerifyPath (p : str).

(** Modelled from the spec: [AuthorizationClient] of [auth_client.py], the
    opaque "remote authorization flow" collaborator.  An instance is the
    record of the arguments it was built from; what its two methods answer
    is up to the outside world, see [Env]. *)
Module AuthorizationClient.
Record t := mk {
  endpoint : option str;
  redirect_uri : str;
  client_id : str;
  scopes : option (list str);
  auth_endpoint : str;
  token_endpoint : str;
  verify : option Verify
}.
End AuthorizationClient.

(** What [subprocess.run(..., capture_output=True, text=True)] hands back. *)
Record CompletedProcess := mkCompletedProcess {
  returncode : Z;
  stdout : str;
  stderr : str
}.

(** The token endpoint's answer, as [get_token] reads it.  [json] is
    [None] when the body is not JSON ([response.json()] raises); a JSON body
    is an object or something else (a list, a string, a number, [null]),
    which cannot be indexed by a key.  Of an object the two keys that are
    read count: [None] for a key that is absent, and a key that is there
    with its value at the type the signature declares ([Tuple[str, int]]). *)
Record TokenJson := mkTokenJson {
  json_access_token : option str;
  json_expires_in : option Z
}.

Inductive JsonBody :=
| JsonOther
| JsonObject (o : TokenJson).

Record Response := mkResponse {
  status_code : Z;
  text : str;
  json : option JsonBody
}.

Inductive LogLevel := DEBUG | INFO | WARNING | ERROR.

(** Everything the module does to the outside, in the order it happens. *)
Inductive Event :=
| Log (level : LogLevel) (msg : str)
| SubprocessRun (cmd : list str)
| HttpPost (url : str) (data headers : list (str * str))
| RefreshAccessToken (client : AuthorizationClient.t) (creds : Credentials)
| GetCredsFromRemote (client : AuthorizationClient.t)
| KeyringStored (creds : Credentials)
| KeyringDeleted (endpoint : option str)
| KeyringRetrieved (endpoint : option str).

(** Outbound flow executions: one IdP round or one command execution. *)
Definition is_outbound (e : Event) : bool :=
  match e with
  | SubprocessRun _ | HttpPost _ _ _
  | RefreshAccessToken _ _ | GetCredsFromRemote _ => true
  | _ => false
  end.

Definition outbound (tr : list Event) : nat :=
  length (filter (fun e => is_outbound e = true) tr).

(** The mutable outside world: the contents of the secure credential store
    and the trace of events so far (oldest first). *)
Record World := mkWorld {
  keyring : gmap str Credentials;
  trace : list Event
}.

(** The environment the program runs in: how the collaborators answer, each
    as a function of the history so far, and the pieces of the Python
    runtime and of [keyring.py] the module relies on without defining. *)
Record Env := mkEnv {
  (** the default of [Credentials.for_endpoint] *)
  default_endpoint : str;
  (** ["{}".format(l)] for a list of strings *)
  repr_list : list str -> str;
  (** [str(e)] for a [CalledProcessError] *)
  str_CalledProcessError : list str -> Z -> str;
  (** launching a process and waiting for it *)
  os_run : list Event -> list str -> Result CompletedProcess;
  (** the HTTP round trip of [requests.post] *)
  http_post :
    list Event -> str -> list (str * str) -> list (str * str) ->
    Result Response;
  (** [AuthorizationClient.refresh_access_token] *)
  idp_refresh :
    list Event -> AuthorizationClient.t -> Credentials ->
    Result (option Credentials);
  (** [AuthorizationClient.get_creds_from_remote] *)
  idp_grant : list Event -> AuthorizationClient.t -> Result Credentials
}.

(** ** The monad of a method body: state passing with exceptions.

    The state survives a raise, as assignments made before it do. *)
Definition M (S A : Type) : Type := S -> Result A * S.

#[global] Instance M_ret {S} : MRet (M S) :=
  fun A a s => (Ok a, s).

#[global] Instance M_bind {S} : MBind (M S) :=
  fun A B f m s =>
    match m s with
    | (Ok a, s') => f a s'
    | (Raise e, s') => (Raise e, s')
    end.

Definition raise {S A} (e : Exception) : M S A := fun s => (Raise e, s).

(** [try: body except <those h answers for>: h e] *)
Definition try_except {S A} (body : M S A)
    (h : Exception -> option (M S A)) : M S A :=
  fun s =>
    match body s with
    | (Ok a, s') => (Ok a, s')
    | (Raise e, s') =>
        match h e with
        | Some k => k s'
        | None => (Raise e, s')
        end
    end.

Definition get {S} : M S S := fun s => (Ok s, s).
Definition put {S} (s : S) : M S unit := fun _ => (Ok tt, s).

(** A method runs on its object and the world; a static function on the
    world alone. *)
Definition in_world {T A} (m : M World A) : M (T * World) A :=
  fun '(self, w) => let '(r, w') := m w in (r, (self, w')).

Definition self {T} : M (T * World) T := fun s => (Ok (fst s), s).
Definition set_self {T} (x : T) : M (T * World) unit :=
  fun s => (Ok tt, (x, snd s)).

Definition emit (e : Event) : M World unit :=
  fun w => (Ok tt, {| keyring := keyring w; trace := trace w ++ [e] |}).

Definition history : M World (list Event) := fun w => (Ok (trace w), w).

Definition of_result {S A} (r : Result A) : M S A := fun s => (r, s).

(** The [logging] calls. *)
Module logging.
Definition debug (msg : str) : M World unit := emit (Log DEBUG msg).
Definition info (msg : str) : M World unit := emit (Log INFO msg).
Definition warning (msg : str) : M World unit := emit (Log WARNING msg).
Definition error (msg : str) : M World unit := emit (Log ERROR msg).
End logging.

(** Modelled from the spec: [KeyringStore] of [keyring.py], the secure
    credential store, a get/put/delete key-value collaborator keyed by
    service endpoint.  [store] files a credential under its own endpoint. *)
Module KeyringStore.
Definition retrieve (endpoint : option str) : M World (option Credentials) :=
  emit (KeyringRetrieved endpoint);;
  w ← get;
  mret (k ← endpoint; keyring w !! k).

Definition store (c : Credentials) : M World unit :=
  emit (KeyringStored c);;
  w ← get;
  put {| keyring := <[for_endpoint c := c]> (keyring w); trace := trace w |}.

Definition delete (endpoint : option str) : M World unit :=
  emit (KeyringDeleted endpoint);;
  w ← get;
  put {| keyring := match endpoint with
                    | Some k => base.delete k (keyring w)
                    | None => keyring w
                    end;
         trace := trace w |}.
End KeyringStore.

(** [subprocess.run(cmd, capture_output=True, text=True, check=True)] *)
Module subprocess.
Definition run (E : Env) (cmd : list str) : M World CompletedProcess :=
  tr ← history;
  emit (SubprocessRun cmd);;
  p ← of_result (os_run E tr cmd);
  if (returncode p =? 0)%Z then mret p
  else raise (CalledProcessError cmd (returncode p)).
End subprocess.

(** [requests.post(url, data=..., headers=...)] *)
Module requests.
Definition post (E : Env) (url : str) (data headers : list (str * str))
    : M World Response :=
  tr ← history;
  emit (HttpPost url data headers);;
  of_result (http_post E tr url data headers).
End requests.

End Runtime.

(* ===================================================================== *)
(** * authenticator.py *)
(* ===================================================================== *)

Import Py Runtime.

(** [@dataclass class ClientConfig] *)
Module ClientConfig.
Record t := mk {
  token_endpoint : str;
  authorization_endpoint : str;
  redirect_uri : str;
  client_id : str;
  device_authorization_endpoint : option str;
  scopes : option (list str);
  header_key : str
}.
End ClientConfig.

(** [class ClientConfigStore]: the abstract [get_client_config]. *)
Class ClientConfigStore (CS : Type) :=
  get_client_config : Env -> CS -> M World ClientConfig.t.

Module StaticClientConfigStore.
Record t := mk { _cfg : ClientConfig.t }.

Definition __init__ (cfg : ClientConfig.t) : t := {| _cfg := cfg |}.

#[global] Instance store : ClientConfigStore t :=
  fun _ self => mret (_cfg self).
End StaticClientConfigStore.

(** [class Authenticator]: the base of all authentication flows. *)
Module Authenticator.

Record t := mk {
  _endpoint : option str;
  _creds : option Credentials;
  _header_key : str
}.

Definition __init__ (endpoint : option str) (header_key : option str)
    (credentials : option Credentials) : t :=
  {| _endpoint := endpoint;
     _creds := credentials;
     _header_key := match header_key with
                    | Some h => if truthy_str h then h else lit "authorization"
                    | None => lit "authorization"
                    end |}.

(** A subclass instance carries the attributes of the base class. *)
Class Sub (T : Type) := {
  base : T -> t;
  with_base : t -> T -> T
}.

#[global] Instance Sub_self : Sub t := {| base := id; with_base := fun b _ => b |}.

(** The abstract method. *)
Class Flow (T : Type) := refresh_credentials : Env -> M (T * World) unit.

Section Methods.
Context {T : Type} `{Sub T}.

Definition get_credentials : M (T * World) (option Credentials) :=
  s ← self; mret (_creds (base s)).

Definition _set_credentials (creds : option Credentials) : M (T * World) unit :=
  s ← self;
  set_self (with_base {| _endpoint := _endpoint (base s);
                         _creds := creds;
                         _header_key := _header_key (base s) |} s).

Definition _set_header_key (h : str) : M (T * World) unit :=
  s ← self;
  set_self (with_base {| _endpoint := _endpoint (base s);
                         _creds := _creds (base s);
                         _header_key := h |} s).

Definition fetch_grpc_call_auth_metadata
    : M (T * World) (option (str * str)) :=
  s ← self;
  match _creds (base s) with
  | Some c =>
      mret (Some (_header_key (base s), lit "Bearer " ++ access_token c))
  | None => mret None
  end.
End Methods.

End Authenticator.

(** [class PKCEAuthenticator(Authenticator)] *)
Module PKCEAuthenticator.
Import Authenticator.

Section WithStore.
Context {CS : Type} `{ClientConfigStore CS}.

Record t := mk {
  super : Authenticator.t;
  _cfg_store : CS;
  _auth_client : option AuthorizationClient.t;
  _verify : option Verify
}.

#[global] Instance sub : Sub t :=
  {| base := super;
     with_base := fun b s =>
       {| super := b; _cfg_store := _cfg_store s;
          _auth_client := _auth_client s; _verify := _verify s |} |}.

Definition __init__ (endpoint : str) (cfg_store : CS)
    (header_key : option str) (verify : option Verify) : M World t :=
  creds ← KeyringStore.retrieve (Some endpoint);
  mret {| super := Authenticator.__init__ (Some endpoint) header_key creds;
          _cfg_store := cfg_store;
          _auth_client := None;
          _verify := verify |}.

Definition _initialize_auth_client (E : Env) : M (t * World) unit :=
  s ← self;
  match _auth_client s with
  | Some _ => mret tt
  | None =>
      cfg ← in_world (get_client_config E (_cfg_store s));
      _set_header_key (ClientConfig.header_key cfg);;
      s ← self;
      set_self
        {| super := super s;
           _cfg_store := _cfg_store s;
           _auth_client := Some
             {| AuthorizationClient.endpoint := _endpoint (super s);
                AuthorizationClient.redirect_uri := ClientConfig.redirect_uri cfg;
                AuthorizationClient.client_id := ClientConfig.client_id cfg;
                AuthorizationClient.scopes := ClientConfig.scopes cfg;
                AuthorizationClient.auth_endpoint :=
                  ClientConfig.authorization_endpoint cfg;
                AuthorizationClient.token_endpoint :=
                  ClientConfig.token_endpoint cfg;
                AuthorizationClient.verify := _verify s |};
           _verify := _verify s |}
  end.

(** [self._auth_client.refresh_access_token(creds)] *)
Definition refresh_access_token (E : Env) (creds : Credentials)
    : M (t * World) (option Credentials) :=
  s ← self;
  match _auth_client s with
  | Some client =>
      in_world (tr ← history;
                emit (RefreshAccessToken client creds);;
                of_result (idp_refresh E tr client creds))
  | None => raise (AttributeError (lit "refresh_access_token"))
  end.

(** [self._auth_client.get_creds_from_remote()] *)
Definition get_creds_from_remote (E : Env) : M (t * World) Credentials :=
  s ← self;
  match _auth_client s with
  | Some client =>
      in_world (tr ← history;
                emit (GetCredsFromRemote client);;
                of_result (idp_grant E tr client))
  | None => raise (AttributeError (lit "get_creds_from_remote"))
  end.

(** The body of the [if self._creds:] block; [true] when it returned,
    [false] when control falls through to the full flow. *)
Definition try_refresh (E : Env) (creds : Credentials) : M (t * World) bool :=
  try_except
    (c ← refresh_access_token E creds;
     _set_credentials c;;
     match c with
     | Some c' => in_world (KeyringStore.store c')
     | None => mret tt
     end;;
     mret true)
    (fun e =>
       match e with
       | AccessTokenNotFoundError _ =>
           Some (in_world (logging.warning (lit
                   "Failed to refresh token. Kicking off a full authorization flow."));;
                 s ← self;
                 in_world (KeyringStore.delete (_endpoint (super s)));;
                 mret false)
       | _ => None
       end).

Definition refresh_credentials (E : Env) : M (t * World) unit :=
  _initialize_auth_client E;;
  s ← self;
  returned ← match _creds (super s) with
             | Some creds => try_refresh E creds
             | None => mret false
             end;
  if returned : bool then mret tt
  else
    c ← get_creds_from_remote E;
    _set_credentials (Some c);;
    in_world (KeyringStore.store c).

#[global] Instance flow : Flow t := refresh_credentials.
End WithStore.
Arguments t CS : clear implicits.

End PKCEAuthenticator.

(** [class CommandAuthenticator(Authenticator)] *)
Module CommandAuthenticator.
Import Authenticator.

Record t := mk {
  super : Authenticator.t;
  _cmd : list str
}.

#[global] Instance sub : Sub t :=
  {| base := super;
     with_base := fun b s => {| super := b; _cmd := _cmd s |} |}.

Definition __init__ (command : option (list str)) (header_key : option str)
    : M World t :=
  if truthy_opt_list command then
    mret {| super := Authenticator.__init__ None header_key None;
            _cmd := default [] command |}
  else
    raise (AuthenticationError
             (lit "Command cannot be empty for command authenticator")).

Definition refresh_credentials (E : Env) : M (t * World) unit :=
  s ← self;
  in_world (logging.debug
    (lit "Starting external process to generate id token. Command "
     ++ repr_list E (_cmd s)));;
  output ← try_except
    (in_world (subprocess.run E (_cmd s)))
    (fun e =>
       match e with
       | CalledProcessError cmd rc =>
           Some (in_world (logging.error
                   (lit "Failed to generate token from command "
                    ++ repr_list E (_cmd s)));;
                 raise (AuthenticationError
                   (lit "Problems refreshing token with command: "
                    ++ str_CalledProcessError E cmd rc)))
       | _ => None
       end);
  _set_credentials
    (Some {| access_token := strip (stdout output);
             for_endpoint := default_endpoint E |}).

#[global] Instance flow : Flow t := refresh_credentials.

End CommandAuthenticator.

(** [class ClientCredentialsAuthenticator(Authenticator)] *)
Module ClientCredentialsAuthenticator.
Import Authenticator.

Record t := mk {
  super : Authenticator.t;
  _token_endpoint : str;
  _scopes : option (list str);
  _client_id : str;
  _client_secret : str
}.

#[global] Instance sub : Sub t :=
  {| base := super;
     with_base := fun b s =>
       {| super := b; _token_endpoint := _token_endpoint s;
          _scopes := _scopes s; _client_id := _client_id s;
          _client_secret := _client_secret s |} |}.

Definition __init__ {CS} `{ClientConfigStore CS} (E : Env)
    (endpoint : str) (client_id client_secret : option str)
    (cfg_store : CS) (header_key : option str) : M World t :=
  if negb (truthy_opt_str client_id) || negb (truthy_opt_str client_secret)
  then raise (ValueError (lit "Client ID and Client SECRET both are required."))
  else
    cfg ← get_client_config E cfg_store;
    mret {| super := Authenticator.__init__ (Some endpoint)
                       (if truthy_str (ClientConfig.header_key cfg)
                        then Some (ClientConfig.header_key cfg)
                        else header_key)
                       None;
            _token_endpoint := ClientConfig.token_endpoint cfg;
            _scopes := ClientConfig.scopes cfg;
            _client_id := default [] client_id;
            _client_secret := default [] client_secret |}.

(** [@staticmethod get_token]: the access token and its expiry. *)
Definition get_token (E : Env) (token_endpoint authorization_header : str)
    (scopes : option (list str)) : M World (str * Z) :=
  let headers :=
    [(lit "Authorization", authorization_header);
     (lit "Cache-Control", lit "no-cache");
     (lit "Accept", lit "application/json");
     (lit "Content-Type", lit "application/x-www-form-urlencoded")] in
  let body := [(lit "grant_type", lit "client_credentials")] in
  let body :=
    match scopes with
    | Some l => body ++ [(lit "scope", join (lit ",") l)]
    | None => body
    end in
  response ← requests.post E token_endpoint body headers;
  if negb (status_code response =? 200)%Z then
    logging.error (lit "Non-200 (" ++ str_of_int (status_code response)
                   ++ lit ") received from IDP: " ++ text response);;
    raise (AuthenticationError (lit "Non-200 received from IDP"))
  else
    match json response with
    | None => raise JSONDecodeError
    | Some JsonOther => raise TypeError
    | Some (JsonObject response) =>
        match json_access_token response with
        | None => raise (KeyError (lit "access_token"))
        | Some token =>
            match json_expires_in response with
            | None => raise (KeyError (lit "expires_in"))
            | Some expires_in => mret (token, expires_in)
            end
        end
    end.

(** [@staticmethod get_basic_authorization_header] *)
Definition get_basic_authorization_header (client_id client_secret : str)
    : Result str :=
  let concated := client_id ++ lit ":" ++ client_secret in
  match utf8_encode concated with
  | None => Raise UnicodeEncodeError
  | Some raw =>
      match utf8_decode (b64encode raw) with
      | None => Raise UnicodeDecodeError
      | Some encoded => Ok (lit "Basic " ++ encoded)
      end
  end.

Definition format_scopes (E : Env) (scopes : option (list str)) : str :=
  match scopes with
  | Some l => repr_list E l
  | None => lit "None"
  end.

Definition refresh_credentials (E : Env) : M (t * World) unit :=
  s ← self;
  let token_endpoint := _token_endpoint s in
  let scopes := _scopes s in
  in_world (logging.debug
    (lit "Basic authorization flow with client id " ++ _client_id s
     ++ lit " scope " ++ format_scopes E scopes));;
  authorization_header ←
    of_result (get_basic_authorization_header (_client_id s) (_client_secret s));
  '(token, expires_in) ←
    in_world (get_token E token_endpoint authorization_header scopes);
  in_world (logging.info
    (lit "Retrieved new token, expires in " ++ str_of_int expires_in));;
  _set_credentials
    (Some {| access_token := token; for_endpoint := default_endpoint E |}).

#[global] Instance flow : Flow t := refresh_credentials.

End ClientCredentialsAuthenticator.

(** [class DeviceCodeAuthenticator(Authenticator)]: every method body of
    the class is [pass]; [__init__] does not call the base initialiser, so
    an instance has none of the base attributes. *)
Module DeviceCodeAuthenticator.

Inductive t : Set := mk.

Definition __init__ {CS} (endpoint : str) (cfg_store : CS)
    (header_key audience : option str) : M World t :=
  mret mk.

Definition _get_code : M (t * World) unit := mret tt.
Definition _poll : M (t * World) unit := mret tt.
Definition _get_token : M (t * World) unit := mret tt.

Definition refresh_credentials (E : Env) : M (t * World) unit := mret tt.

(** The inherited accessors read attributes that were never set. *)
Definition get_credentials : M (t * World) (option Credentials) :=
  raise (AttributeError (lit "_creds")).

Definition fetch_grpc_call_auth_metadata : M (t * World) (option (str * str)) :=
  raise (AttributeError (lit "_creds")).

#[global] Instance flow : Authenticator.Flow t := refresh_credentials.

End DeviceCodeAuthenticator.


(* ===================================================================== *)
(** * Concurrent calls *)
(* ===================================================================== *)

(** Calls of [refresh_credentials] made by several threads on one
    authenticator.  A call of the external-command or of the
    client-credentials flow has two parts: the outbound part, which obtains
    the token and blocks on the collaborator, and the assignment of
    [self._creds].  The threads share the object and the world and may be
    switched between the two parts; a schedule names the thread that takes
    each next step. *)
Module Threads.

Section TwoPhase.
Context {T B : Type}.
Variable fetch : M (T * World) B.
Variable commit : B -> M (T * World) unit.

(** The call as the source runs it in one thread. *)
Definition call : M (T * World) unit := b ← fetch; commit b.

Inductive Thread :=
| Start
| Fetched (b : B)
| Done (r : Result unit).

Definition step1 (t : Thread) (st : T * World) : Thread * (T * World) :=
  match t with
  | Start =>
      match fetch st with
      | (Ok b, st') => (Fetched b, st')
      | (Raise e, st') => (Done (Raise e), st')
      end
  | Fetched b => let '(r, st') := commit b st in (Done r, st')
  | Done r => (Done r, st)
  end.

Record Config := mkConfig {
  threads : list Thread;
  shared : T * World
}.

Definition step (c : Config) (i : nat) : Config :=
  match threads c !! i with
  | Some t =>
      let '(t', st') := step1 t (shared c) in
      {| threads := <[i := t']> (threads c); shared := st' |}
  | None => c
  end.

Definition run (sched : list nat) (c : Config) : Config :=
  fold_left step sched c.

Definition spawn (n : nat) (st : T * World) : Config :=
  {| threads := replicate n Start; shared := st |}.

Definition is_done (t : Thread) : bool :=
  match t with Done _ => true | _ => false end.

Definition finished (c : Config) : bool := forallb is_done (threads c).

(** The threads that have made their outbound call. *)
Definition started1 (t : Thread) : nat :=
  match t with Start => 0 | _ => 1 end.

Definition started (l : list Thread) : nat :=
  list_sum (map started1 l).

Definition flights (c : Config) : nat := outbound (trace (shared c).2).
End TwoPhase.

Arguments Start {B}.
Arguments Fetched {B} b.
Arguments Done {B} r.

End Threads.

(** The two parts of the external-command call. *)
Definition command_fetch (E : Env)
    : M (CommandAuthenticator.t * World) CompletedProcess :=
  s ← self;
  in_world (logging.debug
    (lit "Starting external process to generate id token. Command "
     ++ repr_list E (CommandAuthenticator._cmd s)));;
  try_except
    (in_world (subprocess.run E (CommandAuthenticator._cmd s)))
    (fun e =>
       match e with
       | CalledProcessError cmd rc =>
           Some (in_world (logging.error
                   (lit "Failed to generate token from command "
                    ++ repr_list E (CommandAuthenticator._cmd s)));;
                 raise (AuthenticationError
                   (lit "Problems refreshing token with command: "
                    ++ str_CalledProcessError E cmd rc)))
       | _ => None
       end).

Definition command_commit (E : Env) (output : CompletedProcess)
    : M (CommandAuthenticator.t * World) unit :=
  Authenticator._set_credentials
    (Some {| access_token := strip (stdout output);
             for_endpoint := default_endpoint E |}).

(** The two parts of the client-credentials call. *)
Definition client_fetch (E : Env)
    : M (ClientCredentialsAuthenticator.t * World) str :=
  s ← self;
  in_world (logging.debug
    (lit "Basic authorization flow with client id "
     ++ ClientCredentialsAuthenticator._client_id s
     ++ lit " scope "
     ++ ClientCredentialsAuthenticator.format_scopes E
          (ClientCredentialsAuthenticator._scopes s)));;
  authorization_header ←
    of_result (ClientCredentialsAuthenticator.get_basic_authorization_header
                 (ClientCredentialsAuthenticator._client_id s)
                 (ClientCredentialsAuthenticator._client_secret s));
  '(token, expires_in) ←
    in_world (ClientCredentialsAuthenticator.get_token E
                (ClientCredentialsAuthenticator._token_endpoint s)
                authorization_header
                (ClientCredentialsAuthenticator._scopes s));
  in_world (logging.info
    (lit "Retrieved new token, expires in " ++ str_of_int expires_in));;
  mret token.

Definition client_commit (E : Env) (token : str)
    : M (ClientCredentialsAuthenticator.t * World) unit :=
  Authenticator._set_credentials
    (Some {| access_token := token; for_endpoint := default_endpoint E |}).

(* ===================================================================== *)
(** * The vocabulary of the statements *)
(* ===================================================================== *)

(** [needle in hay] for two strings. *)
Fixpoint starts_with (needle hay : str) : bool :=
  match needle, hay with
  | [], _ => true
  | a :: n', b :: h' => (a =? b) && starts_with n' h'
  | _ :: _, [] => false
  end.

Fixpoint occurs_in (needle hay : str) : bool :=
  starts_with needle hay
  || match hay with
     | [] => false
     | _ :: h' => occurs_in needle h'
     end.

(** The line the external-command flow logs before it starts the process. *)
Definition command_debug_line (E : Env) (s : CommandAuthenticator.t) : Event :=
  Log DEBUG (lit "Starting external process to generate id token. Command "
             ++ repr_list E (CommandAuthenticator._cmd s)).

(** The request [get_token] sends, and the line logged before it. *)
Definition token_request_headers (authorization_header : str)
    : list (str * str) :=
  [(lit "Authorization", authorization_header);
   (lit "Cache-Control", lit "no-cache");
   (lit "Accept", lit "application/json");
   (lit "Content-Type", lit "application/x-www-form-urlencoded")].

Definition token_request_body (scopes : option (list str))
    : list (str * str) :=
  match scopes with
  | Some l => [(lit "grant_type", lit "client_credentials");
               (lit "scope", join (lit ",") l)]
  | None => [(lit "grant_type", lit "client_credentials")]
  end.

Definition client_debug_line (E : Env) (s : ClientCredentialsAuthenticator.t)
    : Event :=
  Log DEBUG (lit "Basic authorization flow with client id "
             ++ ClientCredentialsAuthenticator._client_id s
             ++ lit " scope "
             ++ ClientCredentialsAuthenticator.format_scopes E
                  (ClientCredentialsAuthenticator._scopes s)).

Definition token_request (s : ClientCredentialsAuthenticator.t) (h : str)
    : Event :=
  HttpPost (ClientCredentialsAuthenticator._token_endpoint s)
    (token_request_body (ClientCredentialsAuthenticator._scopes s))
    (token_request_headers h).

(** What the token endpoint answers to the refresh of [s] started in [w]. *)
Definition token_response (E : Env) (s : ClientCredentialsAuthenticator.t)
    (w : World) (h : str) : Result Response :=
  http_post E (trace w ++ [client_debug_line E s])
    (ClientCredentialsAuthenticator._token_endpoint s)
    (token_request_body (ClientCredentialsAuthenticator._scopes s))
    (token_request_headers h).

(** The PKCE authenticator [s] with its credential replaced. *)
Definition with_creds {CS} (c : option Credentials)
    (s : PKCEAuthenticator.t CS) : PKCEAuthenticator.t CS :=
  {| PKCEAuthenticator.super :=
       {| Authenticator._endpoint :=
            Authenticator._endpoint (PKCEAuthenticator.super s);
          Authenticator._creds := c;
          Authenticator._header_key :=
            Authenticator._header_key (PKCEAuthenticator.super s) |};
     PKCEAuthenticator._cfg_store := PKCEAuthenticator._cfg_store s;
     PKCEAuthenticator._auth_client := PKCEAuthenticator._auth_client s;
     PKCEAuthenticator._verify := PKCEAuthenticator._verify s |}.

Definition warning_line : Event :=
  Log WARNING
    (lit "Failed to refresh token. Kicking off a full authorization flow.").

(** The world once the stale entry is purged: the refresh round-trip, the
    warning and the deletion have happened. *)
Definition purged (w1 : World) (ep : str) (client : AuthorizationClient.t)
    (c : Credentials) : World :=
  {| keyring := base.delete ep (keyring w1);
     trace := trace w1 ++ [RefreshAccessToken client c; warning_line;
                           KeyringDeleted (Some ep)] |}.

(** The credential [c] was written to the store under [endpoint] in the
    course of the call that took the world from [w] to [w']. *)
Definition persisted_during (w w' : World) (endpoint : option str)
    (c : Credentials) : Prop :=
  exists ep, endpoint = Some ep
    /\ keyring w' !! ep = Some c
    /\ KeyringStored c ∈ drop (length (trace w)) (trace w').

(** The client id and secret have a Basic-Auth header. *)
Definition encodable (st : ClientCredentialsAuthenticator.t * World) : Prop :=
  is_ok (ClientCredentialsAuthenticator.get_basic_authorization_header
           (ClientCredentialsAuthenticator._client_id st.1)
           (ClientCredentialsAuthenticator._client_secret st.1)) = true.

(** The numbers below [n], to check a fact about octets case by case. *)
Definition range (n : nat) : list N := map N.of_nat (seq 0 n).

(** The six-bit groups [i0 i1 i2 i3] of the octets [a b c]. *)
Definition i0_of (a : N) : N := N.shiftr a 2.
Definition i1_of (a b : N) : N := N.lor (N.shiftl (N.land a 3) 4) (N.shiftr b 4).
Definition i2_of (b c : N) : N := N.lor (N.shiftl (N.land b 15) 2) (N.shiftr c 6).
Definition i3_of (c : N) : N := N.land c 63.

(** The header as the specification words it: ["Basic "] followed by the
    base64 encoding of [client_id + ":" + client_secret].  Text is
    base64-encoded through its UTF-8 octets; where it has none there is no
    encoding and the call raises. *)
Definition base64_of_text (s : str) : option str :=
  b64encode <$> utf8_encode s.

Definition basic_header_spec (client_id client_secret : str) : Result str :=
  match base64_of_text (client_id ++ lit ":" ++ client_secret) with
  | Some encoded => Ok (lit "Basic " ++ encoded)
  | None => Raise UnicodeEncodeError
  end.

(** What every configuration reached from [n] fresh threads satisfies: one
    flight per thread that has left [Start]. *)
Definition counted {T B} (Good : T * World -> Prop) (base n : nat)
    (c : Threads.Config (T:=T) (B:=B)) : Prop :=
  Good (Threads.shared c)
  /\ length (Threads.threads c) = n
  /\ Threads.flights c = (base + Threads.started (Threads.threads c))%nat.

(** An authenticator of any class with its credential replaced: the one
    attribute [refresh_credentials] is there to change. *)
Definition set_creds {T} `{Authenticator.Sub T} (c : option Credentials)
    (s : T) : T :=
  Authenticator.with_base
    {| Authenticator._endpoint := Authenticator._endpoint (Authenticator.base s);
       Authenticator._creds := c;
       Authenticator._header_key :=
         Authenticator._header_key (Authenticator.base s) |} s.

(** The credential [Credentials(token)] builds. *)
Definition credentials_of (E : Env) (token : str) : Credentials :=
  {| access_token := token; for_endpoint := default_endpoint E |}.

(** A string that neither starts nor ends with whitespace. *)
Definition trimmed (s : str) : Prop :=
  (forall c, head s = Some c -> isspace c = false)
  /\ (forall c, last s = Some c -> isspace c = false).

(** The lines the flows log. *)
Definition command_error_line (E : Env) (s : CommandAuthenticator.t) : Event :=
  Log ERROR (lit "Failed to generate token from command "
             ++ repr_list E (CommandAuthenticator._cmd s)).

Definition client_info_line (expires_in : Z) : Event :=
  Log INFO (lit "Retrieved new token, expires in " ++ str_of_int expires_in).

(** The header key an authenticator built from a configuration's key and a
    caller's key answers with: the configuration's when it is not empty,
    else the caller's when there is one and it is not empty, else
    ["authorization"]. *)
Definition resolved_header_key (cfg_key : str) (header_key : option str) : str :=
  match cfg_key, header_key with
  | _ :: _, _ => cfg_key
  | [], Some (c :: h) => c :: h
  | [], _ => lit "authorization"
  end.

(** The client [_initialize_auth_client] builds from a configuration. *)
Definition client_of {CS} (cfg : ClientConfig.t) (s : PKCEAuthenticator.t CS)
    : AuthorizationClient.t :=
  {| AuthorizationClient.endpoint :=
       Authenticator._endpoint (PKCEAuthenticator.super s);
     AuthorizationClient.redirect_uri := ClientConfig.redirect_uri cfg;
     AuthorizationClient.client_id := ClientConfig.client_id cfg;
     AuthorizationClient.scopes := ClientConfig.scopes cfg;
     AuthorizationClient.auth_endpoint := ClientConfig.authorization_endpoint cfg;
     AuthorizationClient.token_endpoint := ClientConfig.token_endpoint cfg;
     AuthorizationClient.verify := PKCEAuthenticator._verify s |}.

(** The PKCE authenticator [__init__] builds around a hydrated credential. *)
Definition pkce_new {CS} (endpoint : str) (cfg_store : CS)
    (header_key : option str) (verify : option Verify)
    (creds : option Credentials) : PKCEAuthenticator.t CS :=
  {| PKCEAuthenticator.super :=
       Authenticator.__init__ (Some endpoint) header_key creds;
     PKCEAuthenticator._cfg_store := cfg_store;
     PKCEAuthenticator._auth_client := None;
     PKCEAuthenticator._verify := verify |}.

(** The PKCE authenticator once its client is initialised from [cfg]: the
    header key is the configuration's and the client is in place. *)
Definition pkce_configured {CS} (cfg : ClientConfig.t)
    (s : PKCEAuthenticator.t CS) : PKCEAuthenticator.t CS :=
  {| PKCEAuthenticator.super :=
       {| Authenticator._endpoint :=
            Authenticator._endpoint (PKCEAuthenticator.super s);
          Authenticator._creds :=
            Authenticator._creds (PKCEAuthenticator.super s);
          Authenticator._header_key := ClientConfig.header_key cfg |};
     PKCEAuthenticator._cfg_store := PKCEAuthenticator._cfg_store s;
     PKCEAuthenticator._auth_client := Some (client_of cfg s);
     PKCEAuthenticator._verify := PKCEAuthenticator._verify s |}.

(** The error reading the token out of a 200 answer raises, if it raises:
    [response.json()] fails on a body that is not JSON, indexing fails with
    [TypeError] on JSON that is not an object and with [KeyError] on an
    object without the key, [access_token] being read first. *)
Definition body_error (body : option JsonBody) : option Exception :=
  match body with
  | None => Some JSONDecodeError
  | Some JsonOther => Some TypeError
  | Some (JsonObject j) =>
      match json_access_token j, json_expires_in j with
      | None, _ => Some (KeyError (lit "access_token"))
      | Some _, None => Some (KeyError (lit "expires_in"))
      | Some _, Some _ => None
      end
  end.

(* ===================================================================== *)
(** * Concrete environments *)
(* ===================================================================== *)

(** Small worlds to run the flows in. *)
Module Fixtures.

Definition repr (l : list str) : str :=
  lit "[" ++ join (lit ", ") (map (fun x => lit "'" ++ x ++ lit "'") l) ++ lit "]".

Definition str_cpe (cmd : list str) (rc : Z) : str :=
  lit "Command '" ++ repr cmd ++ lit "' returned non-zero exit status "
  ++ str_of_int rc ++ lit ".".

Definition unreachable {A} : Result A :=
  Raise (OtherError (lit "ConnectionError") (lit "unreachable")).

(** An environment from its four collaborators. *)
Definition env run post refresh grant : Env :=
  {| default_endpoint := lit "flyte-default";
     repr_list := repr;
     str_CalledProcessError := str_cpe;
     os_run := run;
     http_post := post;
     idp_refresh := refresh;
     idp_grant := grant |}.

Definition no_run : list Event -> list str -> Result CompletedProcess :=
  fun _ _ => unreachable.
Definition no_post
    : list Event -> str -> list (str * str) -> list (str * str) -> Result Response :=
  fun _ _ _ _ => unreachable.
Definition no_refresh
    : list Event -> AuthorizationClient.t -> Credentials -> Result (option Credentials) :=
  fun _ _ _ => unreachable.
Definition no_grant : list Event -> AuthorizationClient.t -> Result Credentials :=
  fun _ _ => unreachable.

(** A command that prints a token, and one that fails. *)
Definition env_cmd_ok : Env :=
  env (fun _ _ => Ok {| returncode := 0; stdout := lit " tok
"; stderr := [] |})
      no_post no_refresh no_grant.

Definition env_cmd_fail : Env :=
  env (fun _ _ => Ok {| returncode := 1; stdout := []; stderr := lit "denied" |})
      no_post no_refresh no_grant.

(** A command that works the first time only. *)
Definition env_cmd_once : Env :=
  env (fun tr _ =>
         Ok {| returncode := Z.of_nat (outbound tr);
               stdout := lit "tok"; stderr := [] |})
      no_post no_refresh no_grant.

(** A token endpoint that answers 500, and one that issues a token. *)
Definition env_idp_500 : Env :=
  env no_run
      (fun _ _ _ _ => Ok {| status_code := 500; text := lit "boom"; json := None |})
      no_refresh no_grant.

Definition env_idp_200 : Env :=
  env no_run
      (fun _ _ _ _ =>
         Ok {| status_code := 200; text := lit "{...}";
               json := Some (JsonObject
                         {| json_access_token := Some (lit "t0k");
                            json_expires_in := Some 3600%Z |}) |})
      no_refresh no_grant.

(** An IdP that has forgotten the refresh token and grants a new one. *)
Definition env_pkce_lost : Env :=
  env no_run no_post
      (fun _ _ _ => Raise (AccessTokenNotFoundError (lit "no refresh token")))
      (fun _ cl => Ok {| access_token := lit "fresh";
                         for_endpoint := default [] (AuthorizationClient.endpoint cl) |}).

Definition world0 : World := {| keyring := ∅; trace := [] |}.

Definition cfg0 : ClientConfig.t :=
  {| ClientConfig.token_endpoint := lit "https://idp/token";
     ClientConfig.authorization_endpoint := lit "https://idp/auth";
     ClientConfig.redirect_uri := lit "http://localhost:53593/callback";
     ClientConfig.client_id := lit "flytectl";
     ClientConfig.device_authorization_endpoint := None;
     ClientConfig.scopes := Some [lit "all"; lit "offline"];
     ClientConfig.header_key := lit "flyte-authorization" |}.

Definition command0 : CommandAuthenticator.t :=
  {| CommandAuthenticator.super :=
       Authenticator.__init__ None None None;
     CommandAuthenticator._cmd := [lit "echo"; lit "tok"] |}.

Definition client0 : ClientCredentialsAuthenticator.t :=
  {| ClientCredentialsAuthenticator.super :=
       Authenticator.__init__ (Some (lit "flyte.example.org"))
         (Some (lit "flyte-authorization")) None;
     ClientCredentialsAuthenticator._token_endpoint := lit "https://idp/token";
     ClientCredentialsAuthenticator._scopes := Some [lit "all"; lit "offline"];
     ClientCredentialsAuthenticator._client_id := lit "abc";
     ClientCredentialsAuthenticator._client_secret := lit "xyz" |}.

Definition old_creds : Credentials :=
  {| access_token := lit "stale"; for_endpoint := lit "flyte.example.org" |}.

Definition pkce0 : PKCEAuthenticator.t StaticClientConfigStore.t :=
  {| PKCEAuthenticator.super :=
       Authenticator.__init__ (Some (lit "flyte.example.org")) None (Some old_creds);
     PKCEAuthenticator._cfg_store := StaticClientConfigStore.__init__ cfg0;
     PKCEAuthenticator._auth_client := None;
     PKCEAuthenticator._verify := None |}.

Definition world_pkce : World :=
  {| keyring := {[ lit "flyte.example.org" := old_creds ]}; trace := [] |}.

(** A command that cannot be started. *)
Definition env_cmd_missing : Env :=
  env (fun _ _ => Raise (OtherError (lit "FileNotFoundError") (lit "echo")))
      no_post no_refresh no_grant.

(** A command that prints nothing but blanks. *)
Definition env_cmd_blank : Env :=
  env (fun _ _ => Ok {| returncode := 0; stdout := lit "
  "; stderr := [] |})
      no_post no_refresh no_grant.

(** Token endpoints that answer 200 with no JSON, or without the token, and
    one that cannot be reached. *)
Definition env_idp_nojson : Env :=
  env no_run
      (fun _ _ _ _ => Ok {| status_code := 200; text := lit "<html>"; json := None |})
      no_refresh no_grant.

Definition env_idp_nokey : Env :=
  env no_run
      (fun _ _ _ _ =>
         Ok {| status_code := 200; text := lit "{}";
               json := Some (JsonObject
                         {| json_access_token := None;
                            json_expires_in := Some 3600%Z |}) |})
      no_refresh no_grant.

Definition env_idp_list : Env :=
  env no_run
      (fun _ _ _ _ =>
         Ok {| status_code := 200; text := lit "[]"; json := Some JsonOther |})
      no_refresh no_grant.

Definition env_idp_down : Env :=
  env no_run no_post no_refresh no_grant.

(** IdPs that refresh the token, that answer the refresh with nothing, and
    that fail it for another reason than a lost token. *)
Definition new_creds : Credentials :=
  {| access_token := lit "rotated"; for_endpoint := lit "flyte.example.org" |}.

Definition env_pkce_ok : Env :=
  env no_run no_post (fun _ _ _ => Ok (Some new_creds)) (fun _ _ => Ok new_creds).

Definition env_pkce_none : Env :=
  env no_run no_post (fun _ _ _ => Ok None) no_grant.

Definition env_pkce_down : Env :=
  env no_run no_post no_refresh no_grant.

(** The PKCE authenticator built in a world whose store is empty. *)
Definition pkce_fresh : PKCEAuthenticator.t StaticClientConfigStore.t :=
  {| PKCEAuthenticator.super :=
       Authenticator.__init__ (Some (lit "flyte.example.org")) None None;
     PKCEAuthenticator._cfg_store := StaticClientConfigStore.__init__ cfg0;
     PKCEAuthenticator._auth_client := None;
     PKCEAuthenticator._verify := None |}.

End Fixtures.

(* ===================================================================== *)
(** * Properties *)
(* ===================================================================== *)

Arguments Py.lit : simpl never.
Arguments Py.str_of_int : simpl never.
Arguments Py.strip : simpl never.
Arguments Py.join : simpl never.
Arguments outbound : simpl never.

Ltac unfold_monad :=
  cbv [mbind mret M_bind M_ret raise try_except get put self set_self
       in_world emit history of_result
       logging.debug logging.info logging.warning logging.error] in *.

Ltac break_match_in H :=
  match type of H with
  | context [match ?x with _ => _ end] =>
      lazymatch x with
      | context [match _ with _ => _ end] => fail
      | _ => destruct x eqn:?; cbn in H
      end
  end.

(** ** The Python values on examples *)

Example utf8_encode_ex :
  utf8_encode [0x41; 0xE9; 0x20AC; 0x1F600]
  = Some [0x41; 0xC3; 0xA9; 0xE2; 0x82; 0xAC; 0xF0; 0x9F; 0x98; 0x80]
  /\ utf8_decode [0x41; 0xC3; 0xA9; 0xE2; 0x82; 0xAC; 0xF0; 0x9F; 0x98; 0x80]
     = Some [0x41; 0xE9; 0x20AC; 0x1F600]
  /\ utf8_encode [0x41; 0xD800] = None
  /\ utf8_decode [0xC0; 0x80] = None.
Proof. repeat split; vm_compute; reflexivity. Qed.

Example b64encode_ex :
  b64encode (lit "") = lit ""
  /\ b64encode (lit "f") = lit "Zg=="
  /\ b64encode (lit "fo") = lit "Zm8="
  /\ b64encode (lit "foo") = lit "Zm9v"
  /\ b64encode (lit "foob") = lit "Zm9vYg=="
  /\ b64decode (lit "Zm9vYg==") = Some (lit "foob").
Proof. repeat split; vm_compute; reflexivity. Qed.

Example strip_ex :
  strip (lit "  tok en
 ") = lit "tok en"
  /\ strip ([0xA0; 0x2003] ++ lit "t" ++ [0x3000]) = lit "t"
  /\ strip (lit "   ") = lit "".
Proof. repeat split; vm_compute; reflexivity. Qed.

Example join_ex :
  join (lit ",") [lit "all"; lit "offline"] = lit "all,offline"
  /\ join (lit ",") [lit "all"] = lit "all"
  /\ join (lit ",") [] = lit "".
Proof. repeat split; vm_compute; reflexivity. Qed.

Example str_of_int_ex :
  str_of_int 500 = lit "500" /\ str_of_int 0 = lit "0"
  /\ str_of_int (-15) = lit "-15".
Proof. repeat split; vm_compute; reflexivity. Qed.

Example occurs_in_ex :
  occurs_in (lit "boom") (lit "kaboom!") = true
  /\ occurs_in (lit "boom") (lit "Non-200 received from IDP") = false
  /\ occurs_in (lit "") (lit "x") = true.
Proof. repeat split; vm_compute; reflexivity. Qed.

(** ** The base class *)

Section Base.
Import Authenticator.
Context {T : Type} `{Sub T}.

(** On every class whose initialiser has run the base initialiser,
    [fetch_grpc_call_auth_metadata] answers [None] exactly when no
    credential is cached and otherwise the pair of the header key and
    ["Bearer " + token]; the object and the world (store and event trace)
    are left as they were. *)
Theorem fetch_auth_metadata_spec (s : T) (w : World) :
  exists r,
    fetch_grpc_call_auth_metadata (s, w) = (Ok r, (s, w))
    /\ ((_creds (base s) = None /\ r = None)
        \/ (exists c, _creds (base s) = Some c
              /\ r = Some (_header_key (base s),
                           lit "Bearer " ++ access_token c))).
Proof.
  unfold fetch_grpc_call_auth_metadata. unfold_monad. cbn.
  destruct (_creds (base s)) as [c|] eqn:Hc; cbn.
  - eexists. split; [reflexivity|]. right. exists c. auto.
  - eexists. split; [reflexivity|]. left. auto.
Qed.
End Base.

(** ** Base64 and the Basic-Auth header *)

Section Base64.
Import ClientCredentialsAuthenticator.

Lemma forallb_range (P : N -> bool) (n : nat) :
  forallb P (range n) = true -> forall x, x < N.of_nat n -> P x = true.
Proof.
  intros Hall x Hx. rewrite forallb_forall in Hall. apply Hall.
  unfold range. rewrite <- (N2Nat.id x). apply in_map.
  apply in_seq. lia.
Qed.

Lemma forallb_range2 (P : N -> N -> bool) (n m : nat) :
  forallb (fun x => forallb (P x) (range m)) (range n) = true ->
  forall x y, x < N.of_nat n -> y < N.of_nat m -> P x y = true.
Proof.
  intros Hall x y Hx Hy.
  apply (forallb_range (P x) m); [|exact Hy].
  apply (forallb_range (fun x => forallb (P x) (range m)) n Hall x Hx).
Qed.

Lemma forallb_range3 (P : N -> N -> N -> bool) (n m k : nat) :
  forallb (fun x => forallb (fun y => forallb (P x y) (range k)) (range m))
    (range n) = true ->
  forall x y z, x < N.of_nat n -> y < N.of_nat m -> z < N.of_nat k ->
                P x y z = true.
Proof.
  intros Hall x y z Hx Hy Hz.
  apply (forallb_range (P x y) k); [|exact Hz].
  apply (forallb_range2 (fun x y => forallb (P x y) (range k)) n m Hall x y Hx Hy).
Qed.

(** The alphabet is ASCII, so the encoding decodes to itself as text. *)
Lemma b64_char_ascii (i : N) : b64_char i < 0x80.
Proof.
  unfold b64_char.
  destruct (nth_in_or_default (N.to_nat i) b64_alphabet 0) as [Hin | ->];
    [|lia].
  assert (Hall : forallb (fun c => c <? 0x80) b64_alphabet = true)
    by (vm_compute; reflexivity).
  rewrite forallb_forall in Hall. apply N.ltb_lt, Hall, Hin.
Qed.

Lemma b64encode_ascii (bs : bytes) :
  Forall (fun c => c < 0x80) (b64encode bs).
Proof.
  assert (Hpad : b64_pad < 0x80) by (vm_compute; reflexivity).
  revert bs. fix IH 1. intros [|a [|b [|c r]]]; cbn [b64encode].
  - constructor.
  - repeat constructor; auto using b64_char_ascii.
  - repeat constructor; auto using b64_char_ascii.
  - repeat (constructor; [apply b64_char_ascii|]). apply IH.
Qed.

Lemma utf8_decode_ascii (bs : bytes) :
  Forall (fun c => c < 0x80) bs -> utf8_decode bs = Some bs.
Proof.
  induction 1 as [|b bs Hb _ IH]; [reflexivity|].
  cbn [utf8_decode]. apply N.ltb_lt in Hb. rewrite Hb, IH. reflexivity.
Qed.

(** The table of [b64_index] inverts the alphabet, which has no ["="]. *)
Lemma b64_table (i : N) :
  i < 64 ->
  b64_index (b64_char i) = Some i /\ (b64_char i =? b64_pad) = false.
Proof.
  intros Hi.
  pose proof (forallb_range
    (fun i => match b64_index (b64_char i) with
              | Some j => (j =? i) && negb (b64_char i =? b64_pad)
              | None => false
              end) 64 ltac:(vm_compute; reflexivity) i Hi) as Hc.
  cbv beta in Hc.
  destruct (b64_index (b64_char i)) as [j|]; [|discriminate].
  apply andb_prop in Hc as [Hj Hp]. apply N.eqb_eq in Hj. subst j.
  split; [reflexivity|]. now apply negb_true_iff in Hp.
Qed.

Lemma b64_index_char (i : N) : i < 64 -> b64_index (b64_char i) = Some i.
Proof. intros Hi. apply (b64_table i Hi). Qed.

Lemma b64_char_not_pad (i : N) : i < 64 -> (b64_char i =? b64_pad) = false.
Proof. intros Hi. apply (b64_table i Hi). Qed.

Lemma octet_parts (a : N) :
  a < 256 ->
  N.land a 3 < 4 /\ N.shiftr a 6 < 4 /\ i0_of a < 64 /\ i3_of a < 64
  /\ N.shiftl (N.land a 3) 4 < 64 /\ N.shiftl (N.land a 15) 2 < 64.
Proof.
  intros Ha.
  pose proof (forallb_range
    (fun a => (N.land a 3 <? 4) && (N.shiftr a 6 <? 4) && (i0_of a <? 64)
              && (i3_of a <? 64) && (N.shiftl (N.land a 3) 4 <? 64)
              && (N.shiftl (N.land a 15) 2 <? 64))
    256 ltac:(vm_compute; reflexivity) a Ha) as Hc.
  cbv beta in Hc. rewrite !andb_true_iff, !N.ltb_lt in Hc. tauto.
Qed.

Lemma first_octet (a b : N) :
  a < 256 -> b < 256 ->
  i1_of a b < 64
  /\ N.lor (N.shiftl (i0_of a) 2) (N.shiftr (i1_of a b) 4) = a
  /\ N.lor (N.shiftl (i0_of a) 2) (N.shiftr (N.shiftl (N.land a 3) 4) 4) = a.
Proof.
  intros Ha Hb.
  pose proof (forallb_range2
    (fun a b =>
       (i1_of a b <? 64)
       && (N.lor (N.shiftl (i0_of a) 2) (N.shiftr (i1_of a b) 4) =? a)
       && (N.lor (N.shiftl (i0_of a) 2)
             (N.shiftr (N.shiftl (N.land a 3) 4) 4) =? a))
    256 256 ltac:(vm_compute; reflexivity) a b Ha Hb) as Hc.
  cbv beta in Hc. rewrite !andb_true_iff, N.ltb_lt, !N.eqb_eq in Hc. tauto.
Qed.

Lemma third_octet (b c : N) :
  b < 256 -> c < 256 ->
  i2_of b c < 64
  /\ N.lor (N.shiftl (N.land (i2_of b c) 3) 6) (i3_of c) = c.
Proof.
  intros Hb Hc'.
  pose proof (forallb_range2
    (fun b c =>
       (i2_of b c <? 64)
       && (N.lor (N.shiftl (N.land (i2_of b c) 3) 6) (i3_of c) =? c))
    256 256 ltac:(vm_compute; reflexivity) b c Hb Hc') as Hc.
  cbv beta in Hc. rewrite !andb_true_iff, N.ltb_lt, !N.eqb_eq in Hc. tauto.
Qed.

Lemma second_octet_parts (p b q : N) :
  p < 4 -> b < 256 -> q < 4 ->
  N.lor (N.shiftl (N.land (N.lor (N.shiftl p 4) (N.shiftr b 4)) 15) 4)
        (N.shiftr (N.lor (N.shiftl (N.land b 15) 2) q) 2) = b
  /\ N.lor (N.shiftl (N.land (N.lor (N.shiftl p 4) (N.shiftr b 4)) 15) 4)
           (N.shiftr (N.shiftl (N.land b 15) 2) 2) = b.
Proof.
  intros Hp Hb Hq.
  pose proof (forallb_range3
    (fun p b q =>
       (N.lor (N.shiftl (N.land (N.lor (N.shiftl p 4) (N.shiftr b 4)) 15) 4)
          (N.shiftr (N.lor (N.shiftl (N.land b 15) 2) q) 2) =? b)
       && (N.lor (N.shiftl (N.land (N.lor (N.shiftl p 4) (N.shiftr b 4)) 15) 4)
             (N.shiftr (N.shiftl (N.land b 15) 2) 2) =? b))
    4 256 4 ltac:(vm_compute; reflexivity) p b q Hp Hb Hq) as Hc.
  cbv beta in Hc. rewrite !andb_true_iff, !N.eqb_eq in Hc. tauto.
Qed.

Lemma second_octet (a b c : N) :
  a < 256 -> b < 256 -> c < 256 ->
  N.lor (N.shiftl (N.land (i1_of a b) 15) 4) (N.shiftr (i2_of b c) 2) = b
  /\ N.lor (N.shiftl (N.land (i1_of a b) 15) 4)
           (N.shiftr (N.shiftl (N.land b 15) 2) 2) = b.
Proof.
  intros Ha Hb Hc.
  destruct (octet_parts a Ha) as (Hp & _).
  destruct (octet_parts c Hc) as (_ & Hq & _).
  exact (second_octet_parts _ b _ Hp Hb Hq).
Qed.

Lemma list_ind3 {A} (P : list A -> Prop) :
  P [] -> (forall a, P [a]) -> (forall a b, P [a; b]) ->
  (forall a b c r, P r -> P (a :: b :: c :: r)) ->
  forall l, P l.
Proof.
  intros H0 H1 H2 H3. fix IH 1. intros [|a [|b [|c r]]].
  - exact H0.
  - apply H1.
  - apply H2.
  - apply H3, IH.
Qed.

Lemma b64encode_cons (d : N) (r : bytes) :
  exists x xs, b64encode (d :: r) = x :: xs.
Proof. destruct r as [|b [|c r]]; cbn [b64encode]; eauto. Qed.

Lemma b64decode_more (c0 c1 c2 c3 x : N) (xs : bytes) :
  b64decode (c0 :: c1 :: c2 :: c3 :: x :: xs)
  = (i0 ← b64_index c0; i1 ← b64_index c1;
     i2 ← b64_index c2; i3 ← b64_index c3;
     r' ← b64decode (x :: xs);
     Some (N.lor (N.shiftl i0 2) (N.shiftr i1 4)
           :: N.lor (N.shiftl (N.land i1 15) 4) (N.shiftr i2 2)
           :: N.lor (N.shiftl (N.land i2 3) 6) i3
           :: r')).
Proof. reflexivity. Qed.

(** Decoding undoes encoding: [b64encode] is base64. *)
Lemma b64decode_encode (bs : bytes) :
  Forall (fun b => b < 256) bs -> b64decode (b64encode bs) = Some bs.
Proof.
  induction bs as [|a|a b|a b c r IH] using list_ind3; intros Hall.
  - reflexivity.
  - apply Forall_cons in Hall as [Ha _].
    destruct (octet_parts a Ha) as (_ & _ & H0 & _ & H1 & _).
    destruct (first_octet a a Ha Ha) as (_ & _ & Hx).
    cbn [b64encode b64decode]. unfold i0_of in *.
    rewrite !b64_index_char, ?b64_char_not_pad by assumption.
    cbn. rewrite Hx. reflexivity.
  - apply Forall_cons in Hall as [Ha Hall].
    apply Forall_cons in Hall as [Hb _].
    destruct (octet_parts a Ha) as (_ & _ & H0 & _).
    destruct (octet_parts b Hb) as (_ & _ & _ & _ & _ & H2).
    destruct (first_octet a b Ha Hb) as (H1 & Hx & _).
    destruct (second_octet a b b Ha Hb Hb) as (_ & Hy).
    cbn [b64encode b64decode]. unfold i0_of, i1_of in *.
    rewrite !b64_index_char, ?b64_char_not_pad by assumption.
    cbn. rewrite Hx, Hy. reflexivity.
  - apply Forall_cons in Hall as [Ha Hall].
    apply Forall_cons in Hall as [Hb Hall].
    apply Forall_cons in Hall as [Hc Hall].
    specialize (IH Hall).
    destruct (octet_parts a Ha) as (_ & _ & H0 & _).
    destruct (octet_parts c Hc) as (_ & _ & _ & H3 & _).
    destruct (first_octet a b Ha Hb) as (H1 & Hx & _).
    destruct (third_octet b c Hb Hc) as (H2 & Hz).
    destruct (second_octet a b c Ha Hb Hc) as (Hy & _).
    cbn [b64encode]. unfold i0_of, i1_of, i2_of, i3_of in *.
    destruct r as [|d r].
    + cbn [b64encode b64decode].
      rewrite !b64_index_char, ?b64_char_not_pad by assumption.
      cbn. rewrite Hx, Hy, Hz. reflexivity.
    + destruct (b64encode_cons d r) as (x & xs & Henc).
      rewrite Henc, b64decode_more, <- Henc, IH.
      rewrite !b64_index_char, ?b64_char_not_pad by assumption.
      cbn. rewrite Hx, Hy, Hz. reflexivity.
Qed.

(** UTF-8 produces octets. *)
Lemma lor_small (hi x : N) (n : nat) :
  forallb (fun x => N.lor hi x <? 256) (range n) = true ->
  x < N.of_nat n -> N.lor hi x < 256.
Proof.
  intros Hall Hx. apply N.ltb_lt.
  exact (forallb_range (fun x => N.lor hi x <? 256) n Hall x Hx).
Qed.

Lemma shiftr_lt (c : N) (k bound : N) :
  c < bound * 2 ^ k -> N.shiftr c k < bound.
Proof.
  intros Hc. rewrite N.shiftr_div_pow2.
  apply N.Div0.div_lt_upper_bound. lia.
Qed.

Lemma cont_octet (x : N) : cont x < 256.
Proof.
  unfold cont. apply (lor_small 0x80 _ 64); [vm_compute; reflexivity|].
  change 0x3F with (N.ones 6). rewrite N.land_ones.
  apply N.mod_lt. discriminate.
Qed.

Lemma utf8_encode1_octets (c : N) (bs : bytes) :
  utf8_encode1 c = Some bs -> Forall (fun b => b < 256) bs.
Proof.
  unfold utf8_encode1.
  destruct (N.ltb_spec c 0x80).
  { intros [= <-]. repeat constructor. lia. }
  destruct (N.ltb_spec c 0x800).
  { intros [= <-]. repeat constructor; [|apply cont_octet].
    apply (lor_small 0xC0 _ 32); [vm_compute; reflexivity|].
    apply shiftr_lt. cbn. lia. }
  destruct (N.ltb_spec c 0x10000).
  { destruct (_ && _); [discriminate|].
    intros [= <-]. repeat constructor; try apply cont_octet.
    apply (lor_small 0xE0 _ 16); [vm_compute; reflexivity|].
    apply shiftr_lt. cbn. lia. }
  destruct (N.leb_spec c 0x10FFFF); [|discriminate].
  intros [= <-]. repeat constructor; try apply cont_octet.
  apply (lor_small 0xF0 _ 8); [vm_compute; reflexivity|].
  apply shiftr_lt. cbn. lia.
Qed.

Lemma utf8_encode_octets (s : str) (bs : bytes) :
  utf8_encode s = Some bs -> Forall (fun b => b < 256) bs.
Proof.
  revert bs. induction s as [|c s IH]; intros bs; cbn [utf8_encode].
  - intros [= <-]. constructor.
  - destruct (utf8_encode1 c) as [b|] eqn:Hc; [|discriminate].
    destruct (utf8_encode s) as [bs'|]; [|discriminate].
    intros [= <-]. apply Forall_app. split.
    + exact (utf8_encode1_octets c b Hc).
    + apply IH. reflexivity.
Qed.

(** C4. The header is ["Basic "] followed by the base64 encoding of
    [client_id + ":" + client_secret], an encoding that decodes to the
    octets of that text; for the id ["abc"] and the secret ["xyz"] it is
    ["Basic YWJjOnh5eg=="]. *)
Theorem basic_authorization_header_spec (client_id client_secret : str) :
  get_basic_authorization_header client_id client_secret
  = basic_header_spec client_id client_secret
  /\ match utf8_encode (client_id ++ lit ":" ++ client_secret) with
     | Some raw =>
         get_basic_authorization_header client_id client_secret
         = Ok (lit "Basic " ++ b64encode raw)
         /\ b64decode (b64encode raw) = Some raw
     | None =>
         get_basic_authorization_header client_id client_secret
         = Raise UnicodeEncodeError
     end
  /\ get_basic_authorization_header (lit "abc") (lit "xyz")
     = Ok (lit "Basic " ++ default [] (base64_of_text (lit "abc:xyz")))
  /\ get_basic_authorization_header (lit "abc") (lit "xyz")
     = Ok (lit "Basic YWJjOnh5eg==").
Proof.
  assert (Hrun : get_basic_authorization_header client_id client_secret
                 = basic_header_spec client_id client_secret).
  { unfold get_basic_authorization_header, basic_header_spec, base64_of_text.
    destruct (utf8_encode _) as [raw|]; cbn; [|reflexivity].
    rewrite (utf8_decode_ascii _ (b64encode_ascii raw)). reflexivity. }
  split; [exact Hrun|]. split; [|split; vm_compute; reflexivity].
  rewrite Hrun. unfold basic_header_spec, base64_of_text.
  destruct (utf8_encode _) as [raw|] eqn:Hraw; cbn; [|reflexivity].
  split; [reflexivity|].
  apply b64decode_encode. exact (utf8_encode_octets _ _ Hraw).
Qed.
End Base64.

(** ** The external-command flow *)

Section CommandFlow.
Import Authenticator CommandAuthenticator.

(** C3. Building a command authenticator from an absent or empty command
    raises [AuthenticationError] with the world untouched (no process is
    started); from a non-empty command it returns the authenticator. *)
Theorem command_init_validates (header_key : option str) (w : World) :
  (let error := AuthenticationError
                  (lit "Command cannot be empty for command authenticator") in
   CommandAuthenticator.__init__ None header_key w = (Raise error, w)
   /\ CommandAuthenticator.__init__ (Some []) header_key w = (Raise error, w))
  /\ (forall a l, exists obj,
         CommandAuthenticator.__init__ (Some (a :: l)) header_key w
         = (Ok obj, w)
         /\ _cmd obj = a :: l /\ _creds (super obj) = None).
Proof.
  split.
  - split; reflexivity.
  - intros a l. eexists. split; [reflexivity|]. split; reflexivity.
Qed.

Variable E : Env.

(** C10. When the command exits with a non-zero status, the refresh
    raises [AuthenticationError] and the authenticator, in particular its
    cached credential, is what it was before the call. *)
Theorem command_refresh_nonzero (s : CommandAuthenticator.t) (w : World)
    (p : CompletedProcess) :
  os_run E (trace w ++ [command_debug_line E s]) (_cmd s) = Ok p ->
  returncode p <> 0%Z ->
  exists msg w',
    CommandAuthenticator.refresh_credentials E (s, w)
    = (Raise (AuthenticationError msg), (s, w'))
    /\ get_credentials (s, w') = (Ok (_creds (super s)), (s, w')).
Proof.
  intros Hrun Hrc.
  unfold CommandAuthenticator.refresh_credentials, subprocess.run.
  unfold_monad. cbn. unfold command_debug_line in Hrun. rewrite Hrun. cbn.
  destruct (Z.eqb_spec (returncode p) 0) as [?|_]; [contradiction|].
  cbn. eexists _, _. split; reflexivity.
Qed.
End CommandFlow.

(** ** The device-code flow *)

(** C8. The device-code refresh as the source has it: it returns at once,
    without an error, whatever the IdP would answer; it polls nothing and
    changes neither the object nor the world. *)
Theorem device_code_refresh_is_a_stub (E : Env)
    (s : DeviceCodeAuthenticator.t) (w : World) :
  DeviceCodeAuthenticator.refresh_credentials E (s, w) = (Ok tt, (s, w)).
Proof. reflexivity. Qed.

(** C2. On the device-code authenticator the inherited
    [fetch_grpc_call_auth_metadata] does not answer [None] while no
    credential is cached: the constructor runs no base initialiser and sets
    no attribute, so the call raises [AttributeError] on reading [_creds],
    on the object as constructed and just as well after a refresh, which
    returns without caching anything. *)
Theorem device_code_fetch_raises {CS : Type} (E : Env) (endpoint : str)
    (cfg_store : CS) (header_key audience : option str) (w : World) :
  exists a,
    DeviceCodeAuthenticator.__init__ endpoint cfg_store header_key audience w
    = (Ok a, w)
    /\ DeviceCodeAuthenticator.fetch_grpc_call_auth_metadata (a, w)
       = (Raise (AttributeError (lit "_creds")), (a, w))
    /\ (DeviceCodeAuthenticator.refresh_credentials E;;
        DeviceCodeAuthenticator.fetch_grpc_call_auth_metadata) (a, w)
       = (Raise (AttributeError (lit "_creds")), (a, w))
    /\ forall r st,
         DeviceCodeAuthenticator.fetch_grpc_call_auth_metadata (a, w)
         <> (Ok r, st).
Proof.
  exists DeviceCodeAuthenticator.mk.
  split; [reflexivity|]. split; [reflexivity|]. split; [reflexivity|].
  intros r st. discriminate.
Qed.

(** ** The client-credentials flow *)

Section ClientCredentialsFlow.
Import Authenticator ClientCredentialsAuthenticator.
Variable E : Env.

Lemma get_token_run (w : World) url h scopes :
  get_token E url h scopes w
  = let w1 := {| keyring := keyring w;
                 trace := trace w ++ [HttpPost url (token_request_body scopes)
                                        (token_request_headers h)] |} in
    match http_post E (trace w) url (token_request_body scopes)
            (token_request_headers h) with
    | Raise e => (Raise e, w1)
    | Ok resp =>
        if (status_code resp =? 200)%Z then
          match json resp with
          | None => (Raise JSONDecodeError, w1)
          | Some JsonOther => (Raise TypeError, w1)
          | Some (JsonObject j) =>
              match json_access_token j, json_expires_in j with
              | None, _ => (Raise (KeyError (lit "access_token")), w1)
              | Some _, None => (Raise (KeyError (lit "expires_in")), w1)
              | Some token, Some expires_in => (Ok (token, expires_in), w1)
              end
          end
        else
          (Raise (AuthenticationError (lit "Non-200 received from IDP")),
           {| keyring := keyring w;
              trace := trace w1 ++
                [Log ERROR (lit "Non-200 (" ++ str_of_int (status_code resp)
                            ++ lit ") received from IDP: " ++ text resp)] |})
    end.
Proof.
  unfold get_token, requests.post, token_request_body. unfold_monad. cbn.
  destruct scopes; cbn;
    (destruct (http_post _ _ _ _ _) as [resp|e]; cbn; [|reflexivity];
     destruct (status_code resp =? 200)%Z; cbn; [|reflexivity];
     destruct (json resp) as [[|j]|]; cbn; try reflexivity;
     destruct (json_access_token j); cbn; [|reflexivity];
     destruct (json_expires_in j); reflexivity).
Qed.

Lemma client_refresh_non200_run (s : ClientCredentialsAuthenticator.t)
    (w : World) (h : str) (resp : Response) :
  get_basic_authorization_header (_client_id s) (_client_secret s) = Ok h ->
  token_response E s w h = Ok resp ->
  status_code resp <> 200%Z ->
  ClientCredentialsAuthenticator.refresh_credentials E (s, w)
  = (Raise (AuthenticationError (lit "Non-200 received from IDP")),
     (s, {| keyring := keyring w;
            trace := trace w ++
              [client_debug_line E s; token_request s h;
               Log ERROR (lit "Non-200 (" ++ str_of_int (status_code resp)
                          ++ lit ") received from IDP: " ++ text resp)] |})).
Proof.
  intros Hh Hpost Hst.
  unfold ClientCredentialsAuthenticator.refresh_credentials.
  unfold_monad. cbn. rewrite Hh. cbn. rewrite get_token_run. cbn.
  unfold token_response, client_debug_line in Hpost. rewrite Hpost.
  destruct (Z.eqb_spec (status_code resp) 200) as [?|_]; [contradiction|].
  cbn. rewrite <- !app_assoc. reflexivity.
Qed.

(** C5, as the code has it.  When the token endpoint answers with a status
    other than 200, the refresh raises [AuthenticationError] with the fixed
    message ["Non-200 received from IDP"]; the status and the response body
    go to the error log, not into the exception. *)
Theorem client_non200_error (s : ClientCredentialsAuthenticator.t)
    (w : World) (h : str) (resp : Response) :
  get_basic_authorization_header (_client_id s) (_client_secret s) = Ok h ->
  token_response E s w h = Ok resp ->
  status_code resp <> 200%Z ->
  exists w',
    ClientCredentialsAuthenticator.refresh_credentials E (s, w)
    = (Raise (AuthenticationError (lit "Non-200 received from IDP")), (s, w'))
    /\ keyring w' = keyring w
    /\ trace w' = trace w ++
         [client_debug_line E s; token_request s h;
          Log ERROR (lit "Non-200 (" ++ str_of_int (status_code resp)
                     ++ lit ") received from IDP: " ++ text resp)].
Proof.
  intros Hh Hpost Hst. eexists. split.
  - apply (client_refresh_non200_run s w h resp); assumption.
  - split; reflexivity.
Qed.

(** C6. When the token endpoint answers with a status other than 200, the
    refresh raises an authentication error and the cached credential is
    what it was before the call. *)
Theorem client_non200_keeps_credential (s : ClientCredentialsAuthenticator.t)
    (w : World) (h : str) (resp : Response) :
  get_basic_authorization_header (_client_id s) (_client_secret s) = Ok h ->
  token_response E s w h = Ok resp ->
  status_code resp <> 200%Z ->
  exists msg s' w',
    ClientCredentialsAuthenticator.refresh_credentials E (s, w)
    = (Raise (AuthenticationError msg), (s', w'))
    /\ get_credentials (s', w') = (Ok (_creds (super s)), (s', w')).
Proof.
  intros Hh Hpost Hst.
  rewrite (client_refresh_non200_run s w h resp Hh Hpost Hst).
  eexists _, _, _. split; reflexivity.
Qed.
End ClientCredentialsFlow.

(** ** The interactive PKCE flow *)

Section PKCEFlow.
Import Authenticator PKCEAuthenticator.
Context {CS : Type} `{ClientConfigStore CS}.
Variable E : Env.

(** Initialising the client leaves endpoint and credential alone, and
    leaves a client behind when it succeeds. *)
Lemma initialize_auth_client_inv s w r s1 w1 :
  _initialize_auth_client E (s, w) = (r, (s1, w1)) ->
  _endpoint (super s1) = _endpoint (super s)
  /\ _creds (super s1) = _creds (super s)
  /\ (r = Ok tt -> is_Some (_auth_client s1)).
Proof.
  unfold _initialize_auth_client, _set_header_key. unfold_monad. cbn.
  destruct (_auth_client s) as [cl|] eqn:Hcl.
  - intros [= <- <- <-]. rewrite Hcl. eauto.
  - destruct (get_client_config E (_cfg_store s) w) as [[cfg|e] w2] eqn:Hcfg; cbn.
    + intros [= <- <- <-]. cbn. eauto.
    + intros [= <- <- <-]. repeat split; try reflexivity. discriminate.
Qed.

(** C7. With a credential cached, when the refresh round-trip fails with
    [AccessTokenNotFoundError], the store entry of the endpoint is deleted,
    that error is not propagated and the full grant runs: its credential
    becomes the cached one and is persisted; if the grant itself fails,
    its own error is what the call raises. *)
Theorem pkce_token_not_found_falls_back
    (s s1 : PKCEAuthenticator.t CS) (w w1 : World) (ep : str)
    (c : Credentials) (client : AuthorizationClient.t) (m : str) :
  _initialize_auth_client E (s, w) = (Ok tt, (s1, w1)) ->
  _auth_client s1 = Some client ->
  _endpoint (super s) = Some ep ->
  _creds (super s) = Some c ->
  idp_refresh E (trace w1) client c = Raise (AccessTokenNotFoundError m) ->
  let w2 := purged w1 ep client c in
  keyring w2 !! ep = None
  /\ match idp_grant E (trace w2) client with
     | Ok c' =>
         PKCEAuthenticator.refresh_credentials E (s, w)
         = (Ok tt,
            (with_creds (Some c') s1,
             {| keyring := <[for_endpoint c' := c']> (keyring w2);
                trace := trace w2 ++ [GetCredsFromRemote client;
                                      KeyringStored c'] |}))
     | Raise e =>
         PKCEAuthenticator.refresh_credentials E (s, w)
         = (Raise e,
            (s1, {| keyring := keyring w2;
                    trace := trace w2 ++ [GetCredsFromRemote client] |}))
     end.
Proof.
  intros Hinit Hcl Hep Hc Href w2.
  destruct (initialize_auth_client_inv _ _ _ _ _ Hinit) as (Hep1 & Hc1 & _).
  rewrite Hep in Hep1. rewrite Hc in Hc1.
  split; [apply lookup_delete_eq|].
  assert (Hrun :
    PKCEAuthenticator.refresh_credentials E (s, w)
    = match idp_grant E (trace w2) client with
      | Ok c' =>
          (Ok tt,
           (with_creds (Some c') s1,
            {| keyring := <[for_endpoint c' := c']> (keyring w2);
               trace := trace w2 ++ [GetCredsFromRemote client;
                                     KeyringStored c'] |}))
      | Raise e =>
          (Raise e,
           (s1, {| keyring := keyring w2;
                   trace := trace w2 ++ [GetCredsFromRemote client] |}))
      end).
  { unfold PKCEAuthenticator.refresh_credentials.
    unfold mbind at 1. unfold M_bind at 1. rewrite Hinit.
    destruct s1 as [[e1 c1 h1] cs1 ac1 v1]; cbn in Hcl, Hep1, Hc1; subst.
    unfold try_refresh, refresh_access_token, get_creds_from_remote,
      _set_credentials, KeyringStore.delete, KeyringStore.store.
    unfold_monad. cbn. rewrite Href. cbn.
    unfold w2, purged, warning_line. cbn. rewrite <- !app_assoc. cbn.
    destruct (idp_grant _ _ _); cbn; rewrite <- ?app_assoc; reflexivity. }
  destruct (idp_grant E (trace w2) client); exact Hrun.
Qed.
End PKCEFlow.

(** ** What a successful refresh leaves behind *)

Section Success.
Import Authenticator.
Variable E : Env.

Lemma command_refresh_success (s s' : CommandAuthenticator.t) (w w' : World) :
  CommandAuthenticator.refresh_credentials E (s, w) = (Ok tt, (s', w')) ->
  exists p,
    os_run E (trace w ++ [command_debug_line E s]) (CommandAuthenticator._cmd s)
    = Ok p
    /\ returncode p = 0%Z
    /\ _creds (CommandAuthenticator.super s')
       = Some {| access_token := strip (stdout p);
                 for_endpoint := default_endpoint E |}
    /\ keyring w' = keyring w.
Proof.
  unfold CommandAuthenticator.refresh_credentials, subprocess.run,
    _set_credentials, command_debug_line.
  unfold_monad. cbn.
  destruct (os_run E _ _) as [p|e] eqn:Hp; cbn.
  - destruct (returncode p =? 0)%Z eqn:Hrc; cbn; [|discriminate].
    intros [= <- <-]. exists p. split; [reflexivity|].
    split; [apply Z.eqb_eq, Hrc|]. split; reflexivity.
  - destruct e; cbn; discriminate.
Qed.

Lemma client_refresh_success (s s' : ClientCredentialsAuthenticator.t)
    (w w' : World) :
  ClientCredentialsAuthenticator.refresh_credentials E (s, w)
  = (Ok tt, (s', w')) ->
  exists h resp j token expires_in,
    ClientCredentialsAuthenticator.get_basic_authorization_header
      (ClientCredentialsAuthenticator._client_id s)
      (ClientCredentialsAuthenticator._client_secret s) = Ok h
    /\ token_response E s w h = Ok resp
    /\ status_code resp = 200%Z
    /\ json resp = Some (JsonObject j)
    /\ json_access_token j = Some token
    /\ json_expires_in j = Some expires_in
    /\ _creds (ClientCredentialsAuthenticator.super s')
       = Some {| access_token := token; for_endpoint := default_endpoint E |}
    /\ keyring w' = keyring w.
Proof.
  unfold ClientCredentialsAuthenticator.refresh_credentials, _set_credentials.
  unfold_monad. cbn.
  destruct (ClientCredentialsAuthenticator.get_basic_authorization_header _ _)
    as [h|e] eqn:Hh; cbn; [|discriminate].
  rewrite get_token_run. cbn.
  destruct (http_post E _ _ _ _) as [resp|e] eqn:Hresp; cbn; [|discriminate].
  destruct (status_code resp =? 200)%Z eqn:Hst; cbn; [|discriminate].
  destruct (json resp) as [[|j]|] eqn:Hj; cbn; try discriminate.
  destruct (json_access_token j) as [token|] eqn:Htok; [|discriminate].
  destruct (json_expires_in j) as [expires_in|] eqn:Hexp; [|discriminate].
  intros [= <- <-]. exists h, resp, j, token, expires_in.
  split; [reflexivity|]. split; [exact Hresp|].
  split; [apply Z.eqb_eq, Hst|]. repeat split; assumption.
Qed.

Lemma pkce_refresh_success {CS} `{ClientConfigStore CS}
    (s s' : PKCEAuthenticator.t CS) (w w' : World) :
  PKCEAuthenticator.refresh_credentials E (s, w) = (Ok tt, (s', w')) ->
  exists s1 w1 client,
    PKCEAuthenticator._initialize_auth_client E (s, w) = (Ok tt, (s1, w1))
    /\ PKCEAuthenticator._auth_client s1 = Some client
    /\ ((_creds (PKCEAuthenticator.super s') = None
         /\ exists old,
              _creds (PKCEAuthenticator.super s1) = Some old
              /\ idp_refresh E (trace w1) client old = Ok None)
        \/ exists c mid,
             _creds (PKCEAuthenticator.super s') = Some c
             /\ trace w' = trace w1 ++ mid ++ [KeyringStored c]
             /\ keyring w' !! for_endpoint c = Some c
             /\ ((exists old,
                     _creds (PKCEAuthenticator.super s1) = Some old
                     /\ mid = [RefreshAccessToken client old]
                     /\ idp_refresh E (trace w1) client old = Ok (Some c))
                 \/ (exists before,
                        mid = before ++ [GetCredsFromRemote client]
                        /\ idp_grant E (trace w1 ++ before) client = Ok c))).
Proof.
  unfold PKCEAuthenticator.refresh_credentials.
  unfold mbind at 1. unfold M_bind at 1.
  destruct (PKCEAuthenticator._initialize_auth_client E (s, w))
    as [[[]|e] [s1 w1]]; [|discriminate].
  intros Hrun. exists s1, w1. revert Hrun.
  unfold PKCEAuthenticator.try_refresh, PKCEAuthenticator.refresh_access_token,
    PKCEAuthenticator.get_creds_from_remote,
    _set_credentials, KeyringStore.delete, KeyringStore.store.
  unfold_monad.
  destruct s1 as [[e1 c1 h1] cs1 ac1 v1]; cbn.
  destruct c1 as [c|], ac1 as [cl|]; cbn; try discriminate.
  - destruct (idp_refresh E (trace w1) cl c) as [[c'|]|e] eqn:Href; cbn.
    + intros [= <- <-]. exists cl. do 2 (split; [reflexivity|]).
      right. exists c', [RefreshAccessToken cl c]. cbn.
      split; [reflexivity|]. split; [rewrite <- app_assoc; reflexivity|].
      split; [apply lookup_insert_eq|].
      left. exists c. auto.
    + intros [= <- <-]. exists cl. do 2 (split; [reflexivity|]).
      left. split; [reflexivity|]. exists c. auto.
    + destruct e; cbn; try discriminate.
      destruct (idp_grant _ _ _) as [c'|e] eqn:Hgrant; cbn; [|discriminate].
      intros [= <- <-]. exists cl. do 2 (split; [reflexivity|]).
      right.
      exists c', [RefreshAccessToken cl c;
                  Log WARNING (lit
                    "Failed to refresh token. Kicking off a full authorization flow.");
                  KeyringDeleted e1; GetCredsFromRemote cl]. cbn.
      split; [reflexivity|]. split; [rewrite <- !app_assoc; reflexivity|].
      split; [apply lookup_insert_eq|].
      right.
      exists [RefreshAccessToken cl c;
              Log WARNING (lit
                "Failed to refresh token. Kicking off a full authorization flow.");
              KeyringDeleted e1].
      split; [reflexivity|].
      rewrite <- !app_assoc in Hgrant. exact Hgrant.
  - destruct (idp_grant _ _ _) as [c'|e] eqn:Hgrant; cbn; [|discriminate].
    intros [= <- <-]. exists cl. do 2 (split; [reflexivity|]).
    right. exists c', [GetCredsFromRemote cl]. cbn.
    split; [reflexivity|]. split; [rewrite <- !app_assoc; reflexivity|].
    split; [apply lookup_insert_eq|].
    right. exists []. split; [reflexivity|].
    rewrite app_nil_r. exact Hgrant.
Qed.
End Success.

(** C1, as the code has it.  After a refresh that returns without raising:
    the external-command flow holds the credential wrapping the trimmed
    output of the command it ran, which exited with status zero; the
    client-credentials flow holds the credential wrapping the [access_token]
    of the answer to its request, a 200 with both keys; neither has touched
    the store.  The interactive PKCE flow holds either no credential (one
    was cached and the refresh round-trip returned none) or the credential
    the IdP has just issued, by the refresh round-trip or by the full grant,
    which the call wrote to the store as its last act, filed under that
    credential's own endpoint. *)
Theorem refresh_success_credential (E : Env) :
  (forall (s s' : CommandAuthenticator.t) (w w' : World),
      CommandAuthenticator.refresh_credentials E (s, w) = (Ok tt, (s', w')) ->
      exists p,
        os_run E (trace w ++ [command_debug_line E s])
          (CommandAuthenticator._cmd s) = Ok p
        /\ returncode p = 0%Z
        /\ Authenticator.get_credentials (s', w')
           = (Ok (Some {| access_token := strip (stdout p);
                          for_endpoint := default_endpoint E |}), (s', w'))
        /\ keyring w' = keyring w)
  /\ (forall (s s' : ClientCredentialsAuthenticator.t) (w w' : World),
         ClientCredentialsAuthenticator.refresh_credentials E (s, w)
         = (Ok tt, (s', w')) ->
         exists h resp j token expires_in,
           ClientCredentialsAuthenticator.get_basic_authorization_header
             (ClientCredentialsAuthenticator._client_id s)
             (ClientCredentialsAuthenticator._client_secret s) = Ok h
           /\ token_response E s w h = Ok resp
           /\ status_code resp = 200%Z
           /\ json resp = Some (JsonObject j)
           /\ json_access_token j = Some token
           /\ json_expires_in j = Some expires_in
           /\ Authenticator.get_credentials (s', w')
              = (Ok (Some {| access_token := token;
                             for_endpoint := default_endpoint E |}), (s', w'))
           /\ keyring w' = keyring w)
  /\ (forall (CS : Type) (H : ClientConfigStore CS)
             (s s' : PKCEAuthenticator.t CS) (w w' : World),
         PKCEAuthenticator.refresh_credentials E (s, w) = (Ok tt, (s', w')) ->
         exists s1 w1 client,
           PKCEAuthenticator._initialize_auth_client E (s, w)
           = (Ok tt, (s1, w1))
           /\ PKCEAuthenticator._auth_client s1 = Some client
           /\ ((Authenticator.get_credentials (s', w') = (Ok None, (s', w'))
                /\ exists old,
                     Authenticator._creds (PKCEAuthenticator.super s1)
                     = Some old
                     /\ idp_refresh E (trace w1) client old = Ok None)
               \/ exists c mid,
                    Authenticator.get_credentials (s', w')
                    = (Ok (Some c), (s', w'))
                    /\ trace w' = trace w1 ++ mid ++ [KeyringStored c]
                    /\ keyring w' !! for_endpoint c = Some c
                    /\ ((exists old,
                            Authenticator._creds (PKCEAuthenticator.super s1)
                            = Some old
                            /\ mid = [RefreshAccessToken client old]
                            /\ idp_refresh E (trace w1) client old
                               = Ok (Some c))
                        \/ (exists before,
                               mid = before ++ [GetCredsFromRemote client]
                               /\ idp_grant E (trace w1 ++ before) client
                                  = Ok c)))).
Proof.
  split; [|split].
  - intros s s' w w' Hrun.
    destruct (command_refresh_success E s s' w w' Hrun)
      as (p & Hp & Hrc & Hc & Hk).
    exists p. do 2 (split; [assumption|]). split; [|exact Hk].
    unfold Authenticator.get_credentials. unfold_monad. cbn.
    rewrite Hc. reflexivity.
  - intros s s' w w' Hrun.
    destruct (client_refresh_success E s s' w w' Hrun)
      as (h & resp & j & token & expires_in
          & Hh & Hresp & Hst & Hj & Htok & Hexp & Hc & Hk).
    exists h, resp, j, token, expires_in.
    do 6 (split; [assumption|]). split; [|exact Hk].
    unfold Authenticator.get_credentials. unfold_monad. cbn.
    rewrite Hc. reflexivity.
  - intros CS H s s' w w' Hrun.
    destruct (pkce_refresh_success E s s' w w' Hrun)
      as (s1 & w1 & client & Hinit & Hcl
          & [[Hnone Hold] | (c & mid & Hc & Htr & Hk & Horigin)]).
    + exists s1, w1, client. do 2 (split; [assumption|]). left.
      split; [|exact Hold].
      unfold Authenticator.get_credentials. unfold_monad. cbn.
      rewrite Hnone. reflexivity.
    + exists s1, w1, client. do 2 (split; [assumption|]). right.
      exists c, mid. split; [|repeat split; assumption].
      unfold Authenticator.get_credentials. unfold_monad. cbn.
      rewrite Hc. reflexivity.
Qed.

(** ** Concurrent calls *)

Lemma outbound_app (l l' : list Event) :
  outbound (l ++ l') = (outbound l + outbound l')%nat.
Proof. unfold outbound. rewrite filter_app, length_app. reflexivity. Qed.

Lemma outbound_snoc (l : list Event) (e : Event) :
  outbound (l ++ [e]) = (outbound l + if is_outbound e then 1 else 0)%nat.
Proof. rewrite outbound_app. destruct e; reflexivity. Qed.

Lemma command_call_parts (E : Env) (st : CommandAuthenticator.t * World) :
  CommandAuthenticator.refresh_credentials E st
  = Threads.call (command_fetch E) (command_commit E) st.
Proof.
  destruct st as [s w].
  unfold CommandAuthenticator.refresh_credentials, Threads.call,
    command_fetch, command_commit, subprocess.run.
  unfold_monad. cbn.
  destruct (os_run E _ _) as [p|e]; cbn.
  - destruct (returncode p =? 0)%Z; reflexivity.
  - destruct e; reflexivity.
Qed.

Lemma client_call_parts (E : Env)
    (st : ClientCredentialsAuthenticator.t * World) :
  ClientCredentialsAuthenticator.refresh_credentials E st
  = Threads.call (client_fetch E) (client_commit E) st.
Proof.
  destruct st as [s w].
  unfold ClientCredentialsAuthenticator.refresh_credentials, Threads.call,
    client_fetch, client_commit.
  unfold_monad. cbn.
  destruct (ClientCredentialsAuthenticator.get_basic_authorization_header _ _)
    as [h|e]; cbn; [|reflexivity].
  destruct (ClientCredentialsAuthenticator.get_token _ _ _ _ _)
    as [[[token expires_in]|e] w']; reflexivity.
Qed.

Section Flights.
Import Threads.
Context {T B : Type}.
Variable fetch : M (T * World) B.
Variable commit : B -> M (T * World) unit.
Variable Good : T * World -> Prop.

Hypothesis fetch_inv : forall st, Good st -> Good (fetch st).2.
Hypothesis commit_inv : forall b st, Good st -> Good (commit b st).2.
Hypothesis fetch_flight :
  forall st, Good st -> outbound (trace (fetch st).2.2) = S (outbound (trace st.2)).
Hypothesis commit_flight :
  forall b st, outbound (trace (commit b st).2.2) = outbound (trace st.2).

Lemma started_replicate (n : nat) : started (B:=B) (replicate n Start) = 0%nat.
Proof. induction n; [reflexivity | exact IHn]. Qed.

Lemma started_cons (t : Thread (B:=B)) (l : list Thread) :
  started (t :: l) = (started1 t + started l)%nat.
Proof. reflexivity. Qed.

Lemma started_insert (l : list (Thread (B:=B))) (i : nat) (t t' : Thread) :
  l !! i = Some t ->
  (started (<[i := t']> l) + started1 t = started l + started1 t')%nat.
Proof.
  revert i. induction l as [|x l IH]; intros i Hl;
    [destruct i; discriminate|].
  destruct i as [|i].
  - injection Hl as ->.
    change (<[0%nat := t']> (t :: l)) with (t' :: l).
    rewrite !started_cons. lia.
  - change (<[S i := t']> (x :: l)) with (x :: <[i := t']> l).
    rewrite !started_cons. specialize (IH i Hl). lia.
Qed.

Lemma finished_started (l : list (Thread (B:=B))) :
  forallb is_done l = true -> started l = length l.
Proof.
  induction l as [|x l IH]; [reflexivity|]. cbn [forallb length].
  intros [Hx Hl]%andb_prop. rewrite started_cons, (IH Hl).
  destruct x; [discriminate | reflexivity | reflexivity].
Qed.

Lemma step_counted (base n : nat) (c : Config) (i : nat) :
  counted Good base n c -> counted Good base n (step fetch commit c i).
Proof.
  intros (HI & Hlen & Hfl). unfold step.
  destruct (threads c !! i) as [t|] eqn:Hi; [|repeat split; assumption].
  pose proof (started_insert (threads c) i t) as Hins.
  unfold counted, flights in *.
  destruct t as [|b|r]; cbn [step1].
  - pose proof (fetch_inv _ HI) as HI'. pose proof (fetch_flight _ HI) as Hf.
    destruct (fetch (shared c)) as [[b|e] st']; cbn [threads shared fst snd] in *;
      (split; [exact HI'|]; split; [rewrite length_insert; exact Hlen|]).
    + specialize (Hins (Fetched b) Hi). cbn [started1] in Hins. lia.
    + specialize (Hins (Done (Raise e)) Hi). cbn [started1] in Hins. lia.
  - pose proof (commit_inv b _ HI) as HI'.
    pose proof (commit_flight b (shared c)) as Hf.
    destruct (commit b (shared c)) as [r st']; cbn [threads shared fst snd] in *.
    split; [exact HI'|]. split; [rewrite length_insert; exact Hlen|].
    specialize (Hins (Done r) Hi). cbn [started1] in Hins. lia.
  - cbn [threads shared fst snd].
    split; [exact HI|]. split; [rewrite length_insert; exact Hlen|].
    specialize (Hins (Done r) Hi). cbn [started1] in Hins. lia.
Qed.

Lemma run_counted (base n : nat) (sched : list nat) (c : Config) :
  counted Good base n c -> counted Good base n (run fetch commit sched c).
Proof.
  revert c. induction sched as [|i sched IH]; intros c Hc; [exact Hc|].
  cbn. apply IH, step_counted, Hc.
Qed.

Lemma flights_of_calls (n : nat) (sched : list nat) (st : T * World) :
  Good st ->
  let c := run fetch commit sched (spawn n st) in
  flights c = (outbound (trace st.2) + started (threads c))%nat
  /\ (finished c = true -> flights c = (outbound (trace st.2) + n)%nat).
Proof.
  intros HI c.
  assert (Hc : counted Good (outbound (trace st.2)) n c).
  { apply run_counted. split; [exact HI|]. split.
    - apply length_replicate.
    - unfold flights, spawn. cbn [threads shared].
      rewrite started_replicate. lia. }
  destruct Hc as (_ & Hlen & Hfl). split; [exact Hfl|].
  intros Hfin. rewrite Hfl, (finished_started _ Hfin), Hlen. reflexivity.
Qed.
End Flights.

Section EachCallFlies.
Variable E : Env.

Lemma command_fetch_flight (st : CommandAuthenticator.t * World) :
  outbound (trace (command_fetch E st).2.2) = S (outbound (trace st.2)).
Proof.
  destruct st as [s w].
  unfold command_fetch, subprocess.run. unfold_monad. cbn.
  destruct (os_run E _ _) as [p|e]; cbn.
  - destruct (returncode p =? 0)%Z; cbn;
      rewrite ?outbound_snoc; cbn [is_outbound]; lia.
  - destruct e; cbn; rewrite ?outbound_snoc; cbn [is_outbound]; lia.
Qed.

Lemma command_commit_flight (p : CompletedProcess)
    (st : CommandAuthenticator.t * World) :
  outbound (trace (command_commit E p st).2.2) = outbound (trace st.2).
Proof. destruct st as [s w]. reflexivity. Qed.

Lemma client_fetch_inv (st : ClientCredentialsAuthenticator.t * World) :
  (client_fetch E st).2.1 = st.1.
Proof.
  destruct st as [s w]. unfold client_fetch. unfold_monad. cbn.
  destruct (ClientCredentialsAuthenticator.get_basic_authorization_header _ _)
    as [h|e]; cbn; [|reflexivity].
  destruct (ClientCredentialsAuthenticator.get_token _ _ _ _ _)
    as [[[token expires_in]|e] w']; reflexivity.
Qed.

Lemma client_fetch_flight (st : ClientCredentialsAuthenticator.t * World) :
  encodable st ->
  outbound (trace (client_fetch E st).2.2) = S (outbound (trace st.2)).
Proof.
  destruct st as [s w]. unfold encodable, client_fetch. unfold_monad. cbn.
  destruct (ClientCredentialsAuthenticator.get_basic_authorization_header _ _)
    as [h|e]; cbn; [intros _|discriminate].
  rewrite get_token_run. cbn.
  destruct (http_post E _ _ _ _) as [resp|e]; cbn.
  - destruct (status_code resp =? 200)%Z; cbn.
    + destruct (json resp) as [[|j]|]; cbn.
      * rewrite ?outbound_snoc; cbn [is_outbound]; lia.
      * destruct (json_access_token j), (json_expires_in j); cbn;
          rewrite ?outbound_snoc; cbn [is_outbound]; lia.
      * rewrite ?outbound_snoc; cbn [is_outbound]; lia.
    + rewrite ?outbound_snoc; cbn [is_outbound]; lia.
  - rewrite ?outbound_snoc; cbn [is_outbound]; lia.
Qed.
End EachCallFlies.

(** A thread scheduled alone makes the call as the source has it. *)
Lemma solo_run {T B} (fetch : M (T * World) B) (commit : B -> M (T * World) unit)
    (st : T * World) :
  Threads.run fetch commit [0; 0]%nat (Threads.spawn 1 st)
  = {| Threads.threads := [Threads.Done (Threads.call fetch commit st).1];
       Threads.shared := (Threads.call fetch commit st).2 |}.
Proof.
  unfold Threads.call. unfold_monad. unfold Threads.run, Threads.spawn.
  cbn [fold_left replicate]. unfold Threads.step at 2.
  cbn [Threads.threads Threads.shared lookup list_lookup Threads.step1].
  destruct (fetch st) as [[b|e] st1]; cbn.
  - unfold Threads.step. cbn. destruct (commit b st1) as [r st2]. reflexivity.
  - reflexivity.
Qed.

(** C9, as the code has it.  [refresh_credentials] has no mutual exclusion.
    Take [n] calls on one external-command authenticator, or on one
    client-credentials authenticator whose id and secret encode, interleaved
    in any way: at every moment the outbound flows executed so far are as
    many as the calls that have made theirs, and once all calls have
    returned there have been [n] of them, one per call. *)
Theorem concurrent_calls_each_fly (E : Env) (n : nat) (sched : list nat) :
  (forall st : CommandAuthenticator.t * World,
      CommandAuthenticator.refresh_credentials E st
      = Threads.call (command_fetch E) (command_commit E) st
      /\ let c := Threads.run (command_fetch E) (command_commit E) sched
                    (Threads.spawn n st) in
         Threads.flights c
         = (outbound (trace st.2) + Threads.started (Threads.threads c))%nat
         /\ (Threads.finished c = true ->
             Threads.flights c = (outbound (trace st.2) + n)%nat))
  /\ (forall st : ClientCredentialsAuthenticator.t * World,
         ClientCredentialsAuthenticator.refresh_credentials E st
         = Threads.call (client_fetch E) (client_commit E) st
         /\ let c := Threads.run (client_fetch E) (client_commit E) sched
                       (Threads.spawn n st) in
            encodable st ->
            Threads.flights c
            = (outbound (trace st.2) + Threads.started (Threads.threads c))%nat
            /\ (Threads.finished c = true ->
                Threads.flights c = (outbound (trace st.2) + n)%nat)).
Proof.
  split; intros st; (split; [first [apply command_call_parts
                                   | apply client_call_parts]|]).
  - intros c.
    refine (flights_of_calls (command_fetch E) (command_commit E)
              (fun _ => True) _ _ _ _ n sched st Logic.I).
    + intros; exact Logic.I.
    + intros; exact Logic.I.
    + intros st0 _. apply command_fetch_flight.
    + apply command_commit_flight.
  - intros c Henc.
    refine (flights_of_calls (client_fetch E) (client_commit E)
              encodable _ _ _ _ n sched st Henc).
    + intros st0 H0. unfold encodable. rewrite client_fetch_inv. exact H0.
    + intros b [s0 w0] H0. exact H0.
    + apply client_fetch_flight.
    + intros b [s0 w0]. reflexivity.
Qed.

(** ** The claims on concrete runs *)

Import Fixtures.

(** The fixtures are what the constructors build. *)
Example command0_init :
  CommandAuthenticator.__init__ (Some [lit "echo"; lit "tok"]) None world0
  = (Ok command0, world0).
Proof. vm_compute. reflexivity. Qed.

Example client0_init :
  ClientCredentialsAuthenticator.__init__ env_idp_200
    (lit "flyte.example.org") (Some (lit "abc")) (Some (lit "xyz"))
    (StaticClientConfigStore.__init__ cfg0) None world0
  = (Ok client0, world0)
  /\ ClientCredentialsAuthenticator.__init__ env_idp_200
       (lit "flyte.example.org") (Some (lit "abc")) None
       (StaticClientConfigStore.__init__ cfg0) None world0
     = (Raise (ValueError (lit "Client ID and Client SECRET both are required.")),
        world0).
Proof. split; vm_compute; reflexivity. Qed.

Example pkce0_init :
  PKCEAuthenticator.__init__ (lit "flyte.example.org")
    (StaticClientConfigStore.__init__ cfg0) None None world_pkce
  = (Ok pkce0,
     {| keyring := keyring world_pkce;
        trace := [KeyringRetrieved (Some (lit "flyte.example.org"))] |}).
Proof. vm_compute. reflexivity. Qed.

(** C1 fails as stated: a client-credentials refresh succeeds and nothing is
    written to the store, under the endpoint or anywhere else. *)
Lemma client_refresh_persists_nothing :
  exists s' w',
    ClientCredentialsAuthenticator.refresh_credentials env_idp_200
      (client0, world0) = (Ok tt, (s', w'))
    /\ ~ (exists c,
             Authenticator._creds (ClientCredentialsAuthenticator.super s')
             = Some c
             /\ persisted_during world0 w'
                  (Authenticator._endpoint
                     (ClientCredentialsAuthenticator.super s')) c).
Proof.
  destruct (ClientCredentialsAuthenticator.refresh_credentials env_idp_200
              (client0, world0)) as [r [s' w']] eqn:Hrun.
  assert (Hr : r = Ok tt).
  { apply (f_equal fst) in Hrun. vm_compute in Hrun. congruence. }
  subst r. exists s', w'. split; [reflexivity|].
  intros (c & _ & ep & _ & Hk & _).
  destruct (client_refresh_success _ _ _ _ _ Hrun)
    as (_ & _ & _ & _ & _ & _ & _ & _ & _ & _ & _ & _ & Hkeep).
  rewrite Hkeep in Hk. cbn in Hk. rewrite lookup_empty in Hk. discriminate.
Qed.

Lemma refresh_success_credential_witness :
  (let st' := (CommandAuthenticator.refresh_credentials env_cmd_ok
                 (command0, world0)).2 in
   exists p,
     os_run env_cmd_ok (trace world0 ++ [command_debug_line env_cmd_ok command0])
       (CommandAuthenticator._cmd command0) = Ok p
     /\ returncode p = 0%Z
     /\ Authenticator.get_credentials st'
        = (Ok (Some {| access_token := strip (stdout p);
                       for_endpoint := default_endpoint env_cmd_ok |}), st')
     /\ keyring st'.2 = keyring world0)
  /\ (let st' := (ClientCredentialsAuthenticator.refresh_credentials
                    env_idp_200 (client0, world0)).2 in
      exists h resp j token expires_in,
        ClientCredentialsAuthenticator.get_basic_authorization_header
          (ClientCredentialsAuthenticator._client_id client0)
          (ClientCredentialsAuthenticator._client_secret client0) = Ok h
        /\ token_response env_idp_200 client0 world0 h = Ok resp
        /\ status_code resp = 200%Z
        /\ json resp = Some (JsonObject j)
        /\ json_access_token j = Some token
        /\ json_expires_in j = Some expires_in
        /\ Authenticator.get_credentials st'
           = (Ok (Some {| access_token := token;
                          for_endpoint := default_endpoint env_idp_200 |}),
              st')
        /\ keyring st'.2 = keyring world0)
  /\ (let st' := (PKCEAuthenticator.refresh_credentials env_pkce_lost
                    (pkce0, world_pkce)).2 in
      exists s1 w1 client,
        PKCEAuthenticator._initialize_auth_client env_pkce_lost
          (pkce0, world_pkce) = (Ok tt, (s1, w1))
        /\ PKCEAuthenticator._auth_client s1 = Some client
        /\ ((Authenticator.get_credentials st' = (Ok None, st')
             /\ exists old,
                  Authenticator._creds (PKCEAuthenticator.super s1) = Some old
                  /\ idp_refresh env_pkce_lost (trace w1) client old = Ok None)
            \/ exists c mid,
                 Authenticator.get_credentials st' = (Ok (Some c), st')
                 /\ trace st'.2 = trace w1 ++ mid ++ [KeyringStored c]
                 /\ keyring st'.2 !! for_endpoint c = Some c
                 /\ ((exists old,
                         Authenticator._creds (PKCEAuthenticator.super s1)
                         = Some old
                         /\ mid = [RefreshAccessToken client old]
                         /\ idp_refresh env_pkce_lost (trace w1) client old
                            = Ok (Some c))
                     \/ (exists before,
                            mid = before ++ [GetCredsFromRemote client]
                            /\ idp_grant env_pkce_lost (trace w1 ++ before)
                                 client = Ok c)))).
Proof.
  split; [|split]; cbv zeta.
  - apply (proj1 (refresh_success_credential env_cmd_ok) command0 _ world0 _).
    vm_compute. reflexivity.
  - apply (proj1 (proj2 (refresh_success_credential env_idp_200))
             client0 _ world0 _).
    vm_compute. reflexivity.
  - apply (proj2 (proj2 (refresh_success_credential env_pkce_lost))
             _ _ pkce0 _ world_pkce _).
    vm_compute. reflexivity.
Defined.

Lemma command_refresh_nonzero_witness :
  returncode {| returncode := 1; stdout := []; stderr := lit "denied" |} <> 0%Z
  /\ exists msg w',
       CommandAuthenticator.refresh_credentials env_cmd_fail (command0, world0)
       = (Raise (AuthenticationError msg), (command0, w'))
       /\ Authenticator.get_credentials (command0, w')
          = (Ok (Authenticator._creds (CommandAuthenticator.super command0)),
             (command0, w')).
Proof.
  split; [cbn; lia|].
  apply (command_refresh_nonzero env_cmd_fail command0 world0
           {| returncode := 1; stdout := []; stderr := lit "denied" |});
    [reflexivity | cbn; lia].
Defined.

Lemma client_non200_error_witness :
  exists w',
    ClientCredentialsAuthenticator.refresh_credentials env_idp_500
      (client0, world0)
    = (Raise (AuthenticationError (lit "Non-200 received from IDP")),
       (client0, w'))
    /\ keyring w' = keyring world0
    /\ trace w' = trace world0 ++
         [client_debug_line env_idp_500 client0;
          token_request client0 (lit "Basic YWJjOnh5eg==");
          Log ERROR (lit "Non-200 (" ++ str_of_int 500
                     ++ lit ") received from IDP: " ++ lit "boom")].
Proof.
  apply (client_non200_error env_idp_500 client0 world0
           (lit "Basic YWJjOnh5eg==")
           {| status_code := 500; text := lit "boom"; json := None |});
    [vm_compute; reflexivity | reflexivity | cbn; lia].
Defined.

Lemma client_non200_keeps_credential_witness :
  exists msg s' w',
    ClientCredentialsAuthenticator.refresh_credentials env_idp_500
      (client0, world0)
    = (Raise (AuthenticationError msg), (s', w'))
    /\ Authenticator.get_credentials (s', w')
       = (Ok (Authenticator._creds
                (ClientCredentialsAuthenticator.super client0)), (s', w')).
Proof.
  apply (client_non200_keeps_credential env_idp_500 client0 world0
           (lit "Basic YWJjOnh5eg==")
           {| status_code := 500; text := lit "boom"; json := None |});
    [vm_compute; reflexivity | reflexivity | cbn; lia].
Defined.

Lemma pkce_token_not_found_falls_back_witness :
  exists s1 w1 client,
    let w2 := purged w1 (lit "flyte.example.org") client old_creds in
    keyring w2 !! lit "flyte.example.org" = None
    /\ match idp_grant env_pkce_lost (trace w2) client with
       | Ok c' =>
           PKCEAuthenticator.refresh_credentials env_pkce_lost
             (pkce0, world_pkce)
           = (Ok tt,
              (with_creds (Some c') s1,
               {| keyring := <[for_endpoint c' := c']> (keyring w2);
                  trace := trace w2 ++ [GetCredsFromRemote client;
                                        KeyringStored c'] |}))
       | Raise e =>
           PKCEAuthenticator.refresh_credentials env_pkce_lost
             (pkce0, world_pkce)
           = (Raise e,
              (s1, {| keyring := keyring w2;
                      trace := trace w2 ++ [GetCredsFromRemote client] |}))
       end.
Proof.
  eexists _, _, _.
  eapply (pkce_token_not_found_falls_back env_pkce_lost pkce0 _ world_pkce _
            (lit "flyte.example.org") old_creds _ (lit "no refresh token"));
    reflexivity.
Defined.

(** C5 fails as stated: the endpoint answers 500 with the body ["boom"], and
    the message of the error that is raised does not contain it. *)
Lemma non200_message_lacks_body :
  exists resp msg s' w',
    token_response env_idp_500 client0 world0 (lit "Basic YWJjOnh5eg==")
    = Ok resp
    /\ status_code resp <> 200%Z
    /\ ClientCredentialsAuthenticator.refresh_credentials env_idp_500
         (client0, world0)
       = (Raise (AuthenticationError msg), (s', w'))
    /\ occurs_in (text resp) msg = false.
Proof.
  exists {| status_code := 500; text := lit "boom"; json := None |}.
  eexists _, _, _. split; [reflexivity|]. split; [cbn; lia|].
  split; vm_compute; reflexivity.
Qed.

Lemma concurrent_calls_each_fly_witness :
  (let c := Threads.run (command_fetch env_cmd_ok) (command_commit env_cmd_ok)
              [0; 1; 0; 1]%nat (Threads.spawn 2 (command0, world0)) in
   Threads.finished c = true
   /\ Threads.flights c = (outbound (trace world0) + 2)%nat)
  /\ (let c := Threads.run (client_fetch env_idp_200) (client_commit env_idp_200)
                 [0; 1; 0; 1]%nat (Threads.spawn 2 (client0, world0)) in
      encodable (client0, world0)
      /\ Threads.finished c = true
      /\ Threads.flights c = (outbound (trace world0) + 2)%nat).
Proof.
  split.
  - split; [vm_compute; reflexivity|].
    apply (proj2 (proj2 (proj1 (concurrent_calls_each_fly env_cmd_ok 2
                                  [0; 1; 0; 1]%nat) (command0, world0)))).
    vm_compute. reflexivity.
  - split; [vm_compute; reflexivity|]. split; [vm_compute; reflexivity|].
    apply (proj2 (proj2 (concurrent_calls_each_fly env_idp_200 2
                           [0; 1; 0; 1]%nat) (client0, world0)));
      [vm_compute; reflexivity|].
    vm_compute. reflexivity.
Defined.

(** C9 fails as stated: two calls that interleave run the command twice, and
    the callers do not see the same outcome (the first returns, the second
    raises). *)
Lemma two_callers_two_flights :
  let c := Threads.run (command_fetch env_cmd_once) (command_commit env_cmd_once)
             [0; 1; 0]%nat (Threads.spawn 2 (command0, world0)) in
  Threads.finished c = true
  /\ Threads.flights c = 2%nat
  /\ Threads.flights c <> (outbound (trace world0) + 1)%nat
  /\ exists msg,
       Threads.threads c
       = [Threads.Done (Ok tt);
          Threads.Done (Raise (AuthenticationError msg))].
Proof.
  split; [vm_compute; reflexivity|].
  split; [vm_compute; reflexivity|].
  split; [vm_compute; lia|].
  eexists. vm_compute. reflexivity.
Qed.

(* ===================================================================== *)
(** * Further properties of the module *)
(* ===================================================================== *)

(** ** [str.strip] *)

Lemma lstrip_head (s : str) (c : N) :
  head (lstrip s) = Some c -> isspace c = false.
Proof.
  induction s as [|a s IH]; cbn [lstrip]; [discriminate|].
  destruct (isspace a) eqn:Ha; [exact IH|].
  cbn. intros [= <-]. exact Ha.
Qed.

Lemma lstrip_snoc (s : str) (c : N) :
  isspace c = false -> lstrip (s ++ [c]) = lstrip s ++ [c].
Proof.
  intros Hc. induction s as [|a s IH]; cbn [lstrip app].
  - rewrite Hc. reflexivity.
  - destruct (isspace a); [exact IH | reflexivity].
Qed.

Lemma last_rev_head {A} (l : list A) : last (rev l) = head l.
Proof.
  destruct l as [|a l]; [reflexivity|]. cbn [rev head].
  apply last_snoc.
Qed.

Lemma head_rev_last {A} (l : list A) : head (rev l) = last l.
Proof. rewrite <- (rev_involutive l) at 2. symmetry. apply last_rev_head. Qed.

Lemma rstrip_keeps_head (s : str) (c : N) :
  head s = Some c -> isspace c = false -> head (rstrip s) = Some c.
Proof.
  destruct s as [|a s]; [discriminate|]. cbn [head]. intros [= ->] Hc.
  unfold rstrip. cbn [rev]. rewrite (lstrip_snoc _ _ Hc).
  rewrite rev_app_distr. reflexivity.
Qed.

Lemma strip_trimmed (s : str) : trimmed (strip s).
Proof.
  unfold trimmed, strip. split; intros c Hc.
  - destruct (head (lstrip s)) as [a|] eqn:Ha.
    + pose proof (lstrip_head s a Ha) as Hsp.
      rewrite (rstrip_keeps_head _ a Ha Hsp) in Hc. congruence.
    + destruct (lstrip s); [|discriminate]. discriminate.
  - unfold rstrip in Hc. rewrite last_rev_head in Hc.
    exact (lstrip_head _ _ Hc).
Qed.

Lemma outbound_cons (e : Event) (l : list Event) :
  outbound (e :: l) = ((if is_outbound e then 1 else 0) + outbound l)%nat.
Proof.
  change (e :: l) with ([e] ++ l). rewrite outbound_app.
  destruct e; reflexivity.
Qed.

Ltac count_outbound :=
  rewrite ?outbound_app, ?outbound_cons;
  change (outbound []) with 0%nat;
  unfold command_debug_line, command_error_line, client_debug_line,
    client_info_line, token_request, warning_line;
  cbn [is_outbound]; lia.

(** ** The external-command flow, every outcome *)

Section CommandOutcomes.
Variable E : Env.

(** The refresh, outcome by outcome of the process. *)
Lemma command_refresh_run (s : CommandAuthenticator.t) (w : World) :
  CommandAuthenticator.refresh_credentials E (s, w)
  = let cmd := CommandAuthenticator._cmd s in
    let ran := {| keyring := keyring w;
                  trace := trace w ++ [command_debug_line E s;
                                       SubprocessRun cmd] |} in
    let failed cmd' rc :=
      (Raise (AuthenticationError
                (lit "Problems refreshing token with command: "
                 ++ str_CalledProcessError E cmd' rc)),
       (s, {| keyring := keyring w;
              trace := trace ran ++ [command_error_line E s] |})) in
    match os_run E (trace w ++ [command_debug_line E s]) cmd with
    | Ok p =>
        if (returncode p =? 0)%Z
        then (Ok tt, (set_creds (Some (credentials_of E (strip (stdout p)))) s,
                      ran))
        else failed cmd (returncode p)
    | Raise (CalledProcessError cmd' rc) => failed cmd' rc
    | Raise e => (Raise e, (s, ran))
    end.
Proof.
  unfold CommandAuthenticator.refresh_credentials, subprocess.run,
    Authenticator._set_credentials, command_debug_line, command_error_line,
    set_creds, credentials_of.
  unfold_monad. cbn.
  destruct (os_run E _ _) as [p|e]; cbn.
  - destruct (returncode p =? 0)%Z; cbn; rewrite <- ?app_assoc; reflexivity.
  - destruct e; cbn; rewrite <- ?app_assoc; reflexivity.
Qed.

(** X1. When the command exits with status zero the refresh returns, the
    cached credential wraps the trimmed output, and the metadata fetched
    next is the unchanged header key with ["Bearer "] and that token; the
    store is untouched and the only events are the debug line and the run
    of the command. *)
Theorem command_refresh_then_fetch (s : CommandAuthenticator.t) (w : World)
    (p : CompletedProcess) :
  os_run E (trace w ++ [command_debug_line E s]) (CommandAuthenticator._cmd s)
  = Ok p ->
  returncode p = 0%Z ->
  exists s' w',
    CommandAuthenticator.refresh_credentials E (s, w) = (Ok tt, (s', w'))
    /\ s' = set_creds (Some (credentials_of E (strip (stdout p)))) s
    /\ keyring w' = keyring w
    /\ trace w' = trace w ++ [command_debug_line E s;
                              SubprocessRun (CommandAuthenticator._cmd s)]
    /\ Authenticator.fetch_grpc_call_auth_metadata (s', w')
       = (Ok (Some (Authenticator._header_key (CommandAuthenticator.super s),
                    lit "Bearer " ++ strip (stdout p))),
          (s', w')).
Proof.
  intros Hrun Hrc. rewrite command_refresh_run. cbv zeta.
  rewrite Hrun, Hrc. cbn [Z.eqb].
  eexists _, _. split; [reflexivity|]. repeat split.
Qed.

(** X2. The token a successful refresh caches neither starts nor ends with
    whitespace, whatever the command printed. *)
Theorem command_token_trimmed (s s' : CommandAuthenticator.t) (w w' : World) :
  CommandAuthenticator.refresh_credentials E (s, w) = (Ok tt, (s', w')) ->
  exists c,
    Authenticator._creds (CommandAuthenticator.super s') = Some c
    /\ trimmed (access_token c).
Proof.
  rewrite command_refresh_run. cbv zeta.
  destruct (os_run E _ _) as [p|e].
  - destruct (returncode p =? 0)%Z; [|discriminate].
    intros [= <- <-]. eexists. split; [reflexivity|]. apply strip_trimmed.
  - destruct e; discriminate.
Qed.

(** X3. An exception of launching the process other than
    [CalledProcessError] (the executable is missing, say) leaves the refresh
    as it is, not wrapped into [AuthenticationError]; nothing is logged as an
    error and the authenticator is unchanged. *)
Theorem command_launch_error_propagates (s : CommandAuthenticator.t)
    (w : World) (e : Exception) :
  os_run E (trace w ++ [command_debug_line E s]) (CommandAuthenticator._cmd s)
  = Raise e ->
  (forall cmd rc, e <> CalledProcessError cmd rc) ->
  CommandAuthenticator.refresh_credentials E (s, w)
  = (Raise e,
     (s, {| keyring := keyring w;
            trace := trace w ++ [command_debug_line E s;
                                 SubprocessRun (CommandAuthenticator._cmd s)] |})).
Proof.
  intros Hrun Hne. rewrite command_refresh_run. cbv zeta. rewrite Hrun.
  destruct e; try reflexivity. exfalso. eapply Hne. reflexivity.
Qed.

(** X4. A non-zero exit status is reported with the text of the
    [CalledProcessError]: the message is ["Problems refreshing token with
    command: "] followed by [str(e)] for that command and status, and one
    error line is logged after the run. *)
Theorem command_nonzero_message (s : CommandAuthenticator.t) (w : World)
    (p : CompletedProcess) :
  os_run E (trace w ++ [command_debug_line E s]) (CommandAuthenticator._cmd s)
  = Ok p ->
  returncode p <> 0%Z ->
  CommandAuthenticator.refresh_credentials E (s, w)
  = (Raise (AuthenticationError
              (lit "Problems refreshing token with command: "
               ++ str_CalledProcessError E (CommandAuthenticator._cmd s)
                    (returncode p))),
     (s, {| keyring := keyring w;
            trace := trace w ++ [command_debug_line E s;
                                 SubprocessRun (CommandAuthenticator._cmd s);
                                 command_error_line E s] |})).
Proof.
  intros Hrun Hrc. rewrite command_refresh_run. cbv zeta. rewrite Hrun.
  destruct (Z.eqb_spec (returncode p) 0) as [?|_]; [contradiction|].
  cbn [trace]. rewrite <- app_assoc. reflexivity.
Qed.

(** X5. Whatever the outcome, the refresh changes nothing of the
    authenticator but the cached credential, runs the command exactly once
    and leaves the store alone. *)
Theorem command_refresh_frame (s : CommandAuthenticator.t) (w : World) :
  let '(_, (s', w')) := CommandAuthenticator.refresh_credentials E (s, w) in
  s' = set_creds (Authenticator._creds (CommandAuthenticator.super s')) s
  /\ keyring w' = keyring w
  /\ outbound (trace w') = S (outbound (trace w)).
Proof.
  rewrite command_refresh_run. cbv zeta.
  assert (Hs : s = set_creds
                     (Authenticator._creds (CommandAuthenticator.super s)) s)
    by (destruct s as [[] ?]; reflexivity).
  destruct (os_run E _ _) as [p|e].
  - destruct (returncode p =? 0)%Z; cbn [trace keyring].
    + split; [reflexivity|]. split; [reflexivity|]. count_outbound.
    + split; [exact Hs|]. split; [reflexivity|]. count_outbound.
  - destruct e; cbn [trace keyring];
      (split; [exact Hs|]; split; [reflexivity|]); count_outbound.
Qed.
End CommandOutcomes.

(** ** The client-credentials flow, every outcome *)

Section ClientOutcomes.
Import ClientCredentialsAuthenticator.
Variable E : Env.

(** The refresh, outcome by outcome of the request. *)
Lemma client_refresh_run (s : ClientCredentialsAuthenticator.t) (w : World) :
  ClientCredentialsAuthenticator.refresh_credentials E (s, w)
  = let logged := trace w ++ [client_debug_line E s] in
    let world tr := {| keyring := keyring w; trace := tr |} in
    match get_basic_authorization_header (_client_id s) (_client_secret s) with
    | Raise e => (Raise e, (s, world logged))
    | Ok h =>
        let posted := logged ++ [token_request s h] in
        match token_response E s w h with
        | Raise e => (Raise e, (s, world posted))
        | Ok resp =>
            if (status_code resp =? 200)%Z then
              match json resp with
              | None => (Raise JSONDecodeError, (s, world posted))
              | Some JsonOther => (Raise TypeError, (s, world posted))
              | Some (JsonObject j) =>
                  match json_access_token j, json_expires_in j with
                  | None, _ =>
                      (Raise (KeyError (lit "access_token")), (s, world posted))
                  | Some _, None =>
                      (Raise (KeyError (lit "expires_in")), (s, world posted))
                  | Some token, Some expires_in =>
                      (Ok tt,
                       (set_creds (Some (credentials_of E token)) s,
                        world (posted ++ [client_info_line expires_in])))
                  end
              end
            else
              (Raise (AuthenticationError (lit "Non-200 received from IDP")),
               (s, world (posted ++
                   [Log ERROR (lit "Non-200 ("
                               ++ str_of_int (status_code resp)
                               ++ lit ") received from IDP: " ++ text resp)])))
        end
    end.
Proof.
  unfold ClientCredentialsAuthenticator.refresh_credentials,
    Authenticator._set_credentials, set_creds, credentials_of.
  unfold_monad. cbn.
  destruct (get_basic_authorization_header _ _) as [h|e]; cbn;
    [|reflexivity].
  rewrite get_token_run. cbn.
  unfold token_response, token_request, client_debug_line, client_info_line.
  destruct (http_post E _ _ _ _) as [resp|e]; cbn; [|reflexivity].
  destruct (status_code resp =? 200)%Z; cbn; [|reflexivity].
  destruct (json resp) as [[|j]|]; cbn; try reflexivity.
  destruct (json_access_token j), (json_expires_in j); reflexivity.
Qed.

(** X6. When the token endpoint answers 200 with a token and an expiry, the
    refresh returns, the cached credential wraps that token and the metadata
    fetched next carries it; the expiry is only logged, the store is
    untouched, and the events are the debug line, the request and the info
    line. *)
Theorem client_refresh_then_fetch (s : ClientCredentialsAuthenticator.t)
    (w : World) (h : str) (resp : Response) (j : TokenJson)
    (token : str) (expires_in : Z) :
  get_basic_authorization_header (_client_id s) (_client_secret s) = Ok h ->
  token_response E s w h = Ok resp ->
  status_code resp = 200%Z ->
  json resp = Some (JsonObject j) ->
  json_access_token j = Some token ->
  json_expires_in j = Some expires_in ->
  exists s' w',
    ClientCredentialsAuthenticator.refresh_credentials E (s, w)
    = (Ok tt, (s', w'))
    /\ s' = set_creds (Some (credentials_of E token)) s
    /\ keyring w' = keyring w
    /\ trace w' = trace w ++ [client_debug_line E s; token_request s h;
                              client_info_line expires_in]
    /\ Authenticator.fetch_grpc_call_auth_metadata (s', w')
       = (Ok (Some (Authenticator._header_key (super s),
                    lit "Bearer " ++ token)), (s', w')).
Proof.
  intros Hh Hresp Hst Hj Htok Hexp. rewrite client_refresh_run. cbv zeta.
  rewrite Hh, Hresp, Hst, Hj, Htok, Hexp. cbn [Z.eqb Pos.eqb].
  eexists _, _. split; [reflexivity|]. repeat split.
  cbn [trace]. rewrite <- !app_assoc. reflexivity.
Qed.

(** X7. A 200 answer whose token cannot be read makes the refresh raise the
    error of reading it, never an [AuthenticationError]: [JSONDecodeError]
    for a body that is not JSON, [TypeError] for JSON that is not an object,
    [KeyError] for an object without [access_token] or without
    [expires_in].  The authenticator is unchanged, a token that came without
    its expiry is dropped, and no error line is logged. *)
Theorem client_unusable_body (s : ClientCredentialsAuthenticator.t)
    (w : World) (h : str) (resp : Response) (e : Exception) :
  get_basic_authorization_header (_client_id s) (_client_secret s) = Ok h ->
  token_response E s w h = Ok resp ->
  status_code resp = 200%Z ->
  body_error (json resp) = Some e ->
  ClientCredentialsAuthenticator.refresh_credentials E (s, w)
  = (Raise e,
     (s, {| keyring := keyring w;
            trace := trace w ++ [client_debug_line E s;
                                 token_request s h] |}))
  /\ (forall msg, e <> AuthenticationError msg).
Proof.
  intros Hh Hresp Hst Hbody. rewrite client_refresh_run. cbv zeta.
  rewrite Hh, Hresp, Hst. cbn [Z.eqb Pos.eqb]. rewrite <- app_assoc.
  unfold body_error in Hbody.
  destruct (json resp) as [[|j]|].
  - injection Hbody as <-. split; [reflexivity | discriminate].
  - destruct (json_access_token j) as [token|].
    + destruct (json_expires_in j) as [n|]; [discriminate|].
      injection Hbody as <-. split; [reflexivity | discriminate].
    + injection Hbody as <-. split; [reflexivity | discriminate].
  - injection Hbody as <-. split; [reflexivity | discriminate].
Qed.

(** X8. A failure of the HTTP round trip itself is raised as it is, after
    the request went out, with the authenticator unchanged. *)
Theorem client_transport_error_propagates
    (s : ClientCredentialsAuthenticator.t) (w : World) (h : str)
    (e : Exception) :
  get_basic_authorization_header (_client_id s) (_client_secret s) = Ok h ->
  token_response E s w h = Raise e ->
  ClientCredentialsAuthenticator.refresh_credentials E (s, w)
  = (Raise e,
     (s, {| keyring := keyring w;
            trace := trace w ++ [client_debug_line E s;
                                 token_request s h] |})).
Proof.
  intros Hh Hresp. rewrite client_refresh_run. cbv zeta.
  rewrite Hh, Hresp, <- app_assoc. reflexivity.
Qed.

(** X9. Whatever the outcome, the refresh changes nothing of the
    authenticator but the cached credential and leaves the store alone; it
    sends one request, or none at all when the id and secret have no
    Basic-Auth header. *)
Theorem client_refresh_frame (s : ClientCredentialsAuthenticator.t)
    (w : World) :
  let '(_, (s', w')) :=
    ClientCredentialsAuthenticator.refresh_credentials E (s, w) in
  s' = set_creds (Authenticator._creds (super s')) s
  /\ keyring w' = keyring w
  /\ outbound (trace w')
     = (outbound (trace w)
        + if is_ok (get_basic_authorization_header (_client_id s)
                      (_client_secret s)) then 1 else 0)%nat.
Proof.
  rewrite client_refresh_run. cbv zeta.
  assert (Hs : s = set_creds (Authenticator._creds (super s)) s)
    by (destruct s as [[] ? ? ? ?]; reflexivity).
  destruct (get_basic_authorization_header _ _) as [h|e]; cbn [is_ok].
  2: { split; [exact Hs|]. split; [reflexivity|]. cbn [trace]. count_outbound. }
  destruct (token_response E s w h) as [resp|e].
  2: { split; [exact Hs|]. split; [reflexivity|]. cbn [trace]. count_outbound. }
  destruct (status_code resp =? 200)%Z.
  2: { split; [exact Hs|]. split; [reflexivity|]. cbn [trace]. count_outbound. }
  destruct (json resp) as [[|j]|].
  1, 3: split; [exact Hs|]; (split; [reflexivity|]); cbn [trace];
    count_outbound.
  destruct (json_access_token j), (json_expires_in j);
    (split; [first [exact Hs | reflexivity]|]; split; [reflexivity|]);
    cbn [trace]; count_outbound.
Qed.
End ClientOutcomes.

(** ** Construction of the client-credentials authenticator *)

Section ClientInit.
Import ClientCredentialsAuthenticator.
Context {CS : Type} `{ClientConfigStore CS}.
Variable E : Env.

(** X10. Without a client id or without a client secret ([None] or the empty
    string) construction raises [ValueError] with the world as it was,
    whatever the configuration store would have answered: the store is not
    consulted. *)
Theorem client_init_requires_id_and_secret (endpoint : str)
    (client_id client_secret : option str) (cfg_store : CS)
    (header_key : option str) (w : World) :
  client_id = None \/ client_id = Some [] \/
  client_secret = None \/ client_secret = Some [] ->
  ClientCredentialsAuthenticator.__init__ E endpoint client_id client_secret
    cfg_store header_key w
  = (Raise (ValueError (lit "Client ID and Client SECRET both are required.")),
     w).
Proof.
  unfold ClientCredentialsAuthenticator.__init__.
  intros [-> | [-> | [-> | ->]]]; cbn;
    try reflexivity; destruct client_id as [[|? ?]|]; reflexivity.
Qed.

(** X11. With an id and a secret, construction takes the token endpoint and
    the scopes from the configuration and starts without a credential.  The
    header key is the configuration's when that is not empty, else the
    caller's when given and not empty, else ["authorization"]; it is never
    empty. *)
Theorem client_init_from_config (endpoint : str) (a b : N) (id secret : str)
    (cfg_store : CS) (header_key : option str) (w w' : World)
    (cfg : ClientConfig.t) :
  get_client_config E cfg_store w = (Ok cfg, w') ->
  exists s,
    ClientCredentialsAuthenticator.__init__ E endpoint
      (Some (a :: id)) (Some (b :: secret)) cfg_store header_key w
    = (Ok s, w')
    /\ Authenticator._header_key (super s)
       = resolved_header_key (ClientConfig.header_key cfg) header_key
    /\ Authenticator._header_key (super s) <> []
    /\ Authenticator._creds (super s) = None
    /\ Authenticator._endpoint (super s) = Some endpoint
    /\ _token_endpoint s = ClientConfig.token_endpoint cfg
    /\ _scopes s = ClientConfig.scopes cfg
    /\ _client_id s = a :: id /\ _client_secret s = b :: secret.
Proof.
  intros Hcfg. unfold ClientCredentialsAuthenticator.__init__. cbn.
  unfold mbind, M_bind. rewrite Hcfg. unfold mret, M_ret.
  eexists. split; [reflexivity|]. cbn.
  assert (Hkey :
    match (if truthy_str (ClientConfig.header_key cfg)
           then Some (ClientConfig.header_key cfg) else header_key) with
    | Some h => if truthy_str h then h else lit "authorization"
    | None => lit "authorization"
    end = resolved_header_key (ClientConfig.header_key cfg) header_key).
  { destruct (ClientConfig.header_key cfg) as [|c k]; cbn.
    - destruct header_key as [[|c h]|]; reflexivity.
    - reflexivity. }
  rewrite Hkey. repeat split.
  unfold resolved_header_key.
  destruct (ClientConfig.header_key cfg) as [|c k]; [|discriminate].
  destruct header_key as [[|c h]|]; discriminate.
Qed.
End ClientInit.

(** ** The interactive PKCE flow, path by path *)

Section PKCEPaths.
Import Authenticator PKCEAuthenticator.
Context {CS : Type} `{ClientConfigStore CS}.
Variable E : Env.

Ltac after_init Hinit s1 :=
  unfold PKCEAuthenticator.refresh_credentials;
  unfold mbind at 1; unfold M_bind at 1; rewrite Hinit;
  destruct s1 as [[? ? ?] ? ? ?]; cbn in *; subst;
  unfold try_refresh, refresh_access_token, get_creds_from_remote,
    _set_credentials, KeyringStore.delete, KeyringStore.store;
  unfold_monad; cbn.

(** X12. The configuration is resolved once: after the client has been
    initialised, initialising again changes neither the authenticator nor
    the world, in whatever world it happens. *)
Theorem initialize_auth_client_once (s s1 : PKCEAuthenticator.t CS)
    (w w1 w2 : World) :
  _initialize_auth_client E (s, w) = (Ok tt, (s1, w1)) ->
  _initialize_auth_client E (s1, w2) = (Ok tt, (s1, w2)).
Proof.
  intros Hinit.
  destruct (initialize_auth_client_inv E _ _ _ _ _ Hinit) as (_ & _ & Hcl).
  destruct (Hcl eq_refl) as [client Hclient].
  unfold _initialize_auth_client. unfold_monad. cbn.
  rewrite Hclient. reflexivity.
Qed.

(** X13. With a credential cached, when the refresh round-trip returns a
    credential, that credential replaces the cached one and is written to the
    store under its own endpoint; no full grant runs and nothing is
    deleted. *)
Theorem pkce_refresh_rotates (s s1 : PKCEAuthenticator.t CS) (w w1 : World)
    (c c' : Credentials) (client : AuthorizationClient.t) :
  _initialize_auth_client E (s, w) = (Ok tt, (s1, w1)) ->
  _auth_client s1 = Some client ->
  _creds (super s) = Some c ->
  idp_refresh E (trace w1) client c = Ok (Some c') ->
  PKCEAuthenticator.refresh_credentials E (s, w)
  = (Ok tt,
     (with_creds (Some c') s1,
      {| keyring := <[for_endpoint c' := c']> (keyring w1);
         trace := trace w1 ++ [RefreshAccessToken client c;
                               KeyringStored c'] |})).
Proof.
  intros Hinit Hcl Hc Href.
  destruct (initialize_auth_client_inv E _ _ _ _ _ Hinit) as (_ & Hc1 & _).
  rewrite Hc in Hc1. after_init Hinit s1. rewrite Href. cbn.
  rewrite <- app_assoc. reflexivity.
Qed.

(** X14. With a credential cached, when the refresh round-trip returns
    without a credential, the call returns normally and the authenticator is
    left with none: the metadata fetched next is absent; the store still
    holds what it held. *)
Theorem pkce_refresh_without_credential (s s1 : PKCEAuthenticator.t CS)
    (w w1 : World) (c : Credentials) (client : AuthorizationClient.t) :
  _initialize_auth_client E (s, w) = (Ok tt, (s1, w1)) ->
  _auth_client s1 = Some client ->
  _creds (super s) = Some c ->
  idp_refresh E (trace w1) client c = Ok None ->
  exists s' w',
    PKCEAuthenticator.refresh_credentials E (s, w) = (Ok tt, (s', w'))
    /\ s' = with_creds None s1
    /\ keyring w' = keyring w1
    /\ trace w' = trace w1 ++ [RefreshAccessToken client c]
    /\ fetch_grpc_call_auth_metadata (s', w') = (Ok None, (s', w')).
Proof.
  intros Hinit Hcl Hc Href.
  destruct (initialize_auth_client_inv E _ _ _ _ _ Hinit) as (_ & Hc1 & _).
  rewrite Hc in Hc1. after_init Hinit s1. rewrite Href. cbn.
  eexists _, _. split; [reflexivity|]. repeat split.
Qed.

(** X15. Any failure of the refresh round-trip other than
    [AccessTokenNotFoundError] is raised as it is: the cached credential and
    the store are untouched, nothing is deleted and no full grant runs. *)
Theorem pkce_refresh_error_propagates (s s1 : PKCEAuthenticator.t CS)
    (w w1 : World) (c : Credentials) (client : AuthorizationClient.t)
    (e : Exception) :
  _initialize_auth_client E (s, w) = (Ok tt, (s1, w1)) ->
  _auth_client s1 = Some client ->
  _creds (super s) = Some c ->
  idp_refresh E (trace w1) client c = Raise e ->
  (forall msg, e <> AccessTokenNotFoundError msg) ->
  PKCEAuthenticator.refresh_credentials E (s, w)
  = (Raise e,
     (s1, {| keyring := keyring w1;
             trace := trace w1 ++ [RefreshAccessToken client c] |}))
  /\ _creds (super s1) = Some c.
Proof.
  intros Hinit Hcl Hc Href Hne.
  destruct (initialize_auth_client_inv E _ _ _ _ _ Hinit) as (_ & Hc1 & _).
  rewrite Hc in Hc1. split; [|exact Hc1].
  after_init Hinit s1. rewrite Href. cbn.
  destruct e; try reflexivity. exfalso. eapply Hne. reflexivity.
Qed.

(** The refresh when nothing is cached, outcome by outcome of the grant. *)
Lemma pkce_grant_run (s s1 : PKCEAuthenticator.t CS) (w w1 : World)
    (client : AuthorizationClient.t) :
  _initialize_auth_client E (s, w) = (Ok tt, (s1, w1)) ->
  _auth_client s1 = Some client ->
  _creds (super s) = None ->
  match idp_grant E (trace w1) client with
  | Ok c' =>
      PKCEAuthenticator.refresh_credentials E (s, w)
      = (Ok tt,
         (with_creds (Some c') s1,
          {| keyring := <[for_endpoint c' := c']> (keyring w1);
             trace := trace w1 ++ [GetCredsFromRemote client;
                                   KeyringStored c'] |}))
  | Raise e =>
      PKCEAuthenticator.refresh_credentials E (s, w)
      = (Raise e,
         (s1, {| keyring := keyring w1;
                 trace := trace w1 ++ [GetCredsFromRemote client] |}))
  end.
Proof.
  intros Hinit Hcl Hc.
  destruct (initialize_auth_client_inv E _ _ _ _ _ Hinit) as (_ & Hc1 & _).
  rewrite Hc in Hc1.
  destruct (idp_grant E (trace w1) client) as [c'|e] eqn:Hg;
    after_init Hinit s1; rewrite Hg; cbn; rewrite <- ?app_assoc; reflexivity.
Qed.

(** X16. Without a cached credential no refresh round-trip is attempted: the
    full grant runs at once, and its credential is cached and written to the
    store.  If the grant fails its error is raised and nothing is cached or
    stored: the authenticator and the store are as [_initialize_auth_client]
    left them, the authenticator still without a credential.  That is as they
    were before the call when the client was already in place; on a first
    call the initialisation has set the header key and created the client,
    and these stay. *)
Theorem pkce_first_grant (s s1 : PKCEAuthenticator.t CS) (w w1 : World)
    (client : AuthorizationClient.t) :
  _initialize_auth_client E (s, w) = (Ok tt, (s1, w1)) ->
  _auth_client s1 = Some client ->
  _creds (super s) = None ->
  _creds (super s1) = None
  /\ (forall cl, _auth_client s = Some cl -> s1 = s /\ w1 = w)
  /\ (_auth_client s = None ->
      exists cfg,
        get_client_config E (_cfg_store s) w = (Ok cfg, w1)
        /\ _header_key (super s1) = ClientConfig.header_key cfg)
  /\ match idp_grant E (trace w1) client with
     | Ok c' =>
         PKCEAuthenticator.refresh_credentials E (s, w)
         = (Ok tt,
            (with_creds (Some c') s1,
             {| keyring := <[for_endpoint c' := c']> (keyring w1);
                trace := trace w1 ++ [GetCredsFromRemote client;
                                      KeyringStored c'] |}))
     | Raise e =>
         PKCEAuthenticator.refresh_credentials E (s, w)
         = (Raise e,
            (s1, {| keyring := keyring w1;
                    trace := trace w1 ++ [GetCredsFromRemote client] |}))
     end.
Proof.
  intros Hinit Hcl Hc.
  destruct (initialize_auth_client_inv E _ _ _ _ _ Hinit) as (_ & Hc1 & _).
  split; [congruence|]. split; [|split].
  - intros cl Hs. revert Hinit.
    unfold _initialize_auth_client. unfold_monad. cbn. rewrite Hs.
    intros [= <- <-]. split; reflexivity.
  - intros Hs. revert Hinit.
    unfold _initialize_auth_client, _set_header_key. unfold_monad. cbn.
    rewrite Hs.
    destruct (get_client_config E (_cfg_store s) w) as [[cfg|e] w2]; cbn;
      [|discriminate].
    intros [= <- <-]. exists cfg. split; reflexivity.
  - exact (pkce_grant_run s s1 w w1 client Hinit Hcl Hc).
Qed.
End PKCEPaths.

Section PKCEFrame.
Import Authenticator PKCEAuthenticator.
Context {CS : Type} `{ClientConfigStore CS}.
Variable E : Env.

Lemma initialize_auth_client_frame (s s1 : PKCEAuthenticator.t CS)
    (w w1 : World) (r : Result unit) :
  _initialize_auth_client E (s, w) = (r, (s1, w1)) ->
  _endpoint (super s1) = _endpoint (super s)
  /\ _cfg_store s1 = _cfg_store s
  /\ _verify s1 = _verify s
  /\ (forall client, _auth_client s = Some client -> s1 = s).
Proof.
  unfold _initialize_auth_client, _set_header_key. unfold_monad. cbn.
  destruct (_auth_client s) as [cl|] eqn:Hcl.
  - intros [= <- <- <-]. auto.
  - destruct (get_client_config E (_cfg_store s) w) as [[cfg|e] w2]; cbn;
      intros [= <- <- <-]; cbn; repeat split; discriminate.
Qed.

(** What is left of a refresh once the client is initialised keeps
    everything but the credential. *)
Lemma refresh_rest_frame (s1 s' : PKCEAuthenticator.t CS) (w1 w' : World)
    (r : Result unit) :
  (s ← self;
   returned ← match _creds (super s) with
              | Some creds => try_refresh E creds
              | None => mret false
              end;
   if returned : bool then mret tt
   else c ← get_creds_from_remote E;
        _set_credentials (Some c);;
        in_world (KeyringStore.store c)) (s1, w1) = (r, (s', w')) ->
  s' = with_creds (_creds (super s')) s1.
Proof.
  unfold try_refresh, refresh_access_token, get_creds_from_remote,
    _set_credentials, KeyringStore.delete, KeyringStore.store.
  unfold_monad. destruct s1 as [[e1 c1 h1] cs1 ac1 v1]. cbn.
  destruct c1 as [c|], ac1 as [cl|]; cbn.
  - destruct (idp_refresh E (trace w1) cl c) as [[c'|]|e]; cbn.
    + intros [= <- <- <-]. reflexivity.
    + intros [= <- <- <-]. reflexivity.
    + destruct e; cbn; try (intros [= <- <- <-]; reflexivity).
      destruct (idp_grant _ _ _) as [c'|e]; cbn;
        intros [= <- <- <-]; reflexivity.
  - intros [= <- <- <-]. reflexivity.
  - destruct (idp_grant _ _ _) as [c'|e]; cbn;
      intros [= <- <- <-]; reflexivity.
  - intros [= <- <- <-]. reflexivity.
Qed.

(** X17. Whatever the outcome, a refresh never changes the endpoint, the
    configuration store or the [verify] setting of the authenticator; and
    once the client is in place, a refresh changes neither the client nor
    the header key. *)
Theorem pkce_refresh_frame (s : PKCEAuthenticator.t CS) (w : World) :
  let '(_, (s', _)) := PKCEAuthenticator.refresh_credentials E (s, w) in
  _endpoint (super s') = _endpoint (super s)
  /\ _cfg_store s' = _cfg_store s
  /\ _verify s' = _verify s
  /\ (forall client,
         _auth_client s = Some client ->
         _auth_client s' = Some client
         /\ _header_key (super s') = _header_key (super s)).
Proof.
  unfold PKCEAuthenticator.refresh_credentials.
  unfold mbind at 1. unfold M_bind at 1.
  destruct (_initialize_auth_client E (s, w)) as [[[]|e] [s1 w1]] eqn:Hinit;
    destruct (initialize_auth_client_frame _ _ _ _ _ Hinit)
      as (Hep & Hcs & Hv & Hsame).
  - match goal with
    | |- context [?m (s1, w1)] =>
        destruct (m (s1, w1)) as [r [s' w']] eqn:Hrest
    end.
    apply refresh_rest_frame in Hrest. rewrite Hrest. cbn.
    repeat split; try assumption;
      rewrite (Hsame client) in * by assumption; assumption || reflexivity.
  - repeat split; try assumption;
      rewrite (Hsame client) by assumption; assumption || reflexivity.
Qed.
End PKCEFrame.

(** ** From construction to the first call *)

Section PKCELogin.
Import Authenticator PKCEAuthenticator.
Variable E : Env.

(** With a static store the first initialisation touches nothing outside:
    the configuration's header key replaces the one the authenticator was
    built with. *)
Lemma initialize_auth_client_static
    (s : PKCEAuthenticator.t StaticClientConfigStore.t) (w : World) :
  _auth_client s = None ->
  _initialize_auth_client E (s, w)
  = (Ok tt, (pkce_configured (StaticClientConfigStore._cfg (_cfg_store s)) s, w)).
Proof.
  intros Hcl. unfold _initialize_auth_client, _set_header_key, pkce_configured,
    client_of, get_client_config, StaticClientConfigStore.store.
  unfold_monad. cbn. rewrite Hcl. cbn. destruct w. reflexivity.
Qed.

(** X18. A first login.  When the store has nothing for the endpoint, a
    newly built authenticator starts without a credential; its first refresh
    runs the full grant, without a refresh round-trip, and stores the
    credential; the metadata fetched next is that token under the header key
    of the configuration, whatever header key the caller gave. *)
Theorem pkce_first_login (endpoint : str) (cfg : ClientConfig.t)
    (header_key : option str) (verify : option Verify) (w : World)
    (c : Credentials) :
  let store := StaticClientConfigStore.__init__ cfg in
  let a := pkce_new endpoint store header_key verify None in
  let w0 := {| keyring := keyring w;
               trace := trace w ++ [KeyringRetrieved (Some endpoint)] |} in
  keyring w !! endpoint = None ->
  idp_grant E (trace w0) (client_of cfg a) = Ok c ->
  PKCEAuthenticator.__init__ endpoint store header_key verify w = (Ok a, w0)
  /\ exists s' w',
       PKCEAuthenticator.refresh_credentials E (a, w0) = (Ok tt, (s', w'))
       /\ keyring w' = <[for_endpoint c := c]> (keyring w)
       /\ trace w' = trace w0 ++ [GetCredsFromRemote (client_of cfg a);
                                  KeyringStored c]
       /\ fetch_grpc_call_auth_metadata (s', w')
          = (Ok (Some (ClientConfig.header_key cfg,
                       lit "Bearer " ++ access_token c)), (s', w')).
Proof.
  intros store a w0 Hnone Hgrant. split.
  - unfold PKCEAuthenticator.__init__, KeyringStore.retrieve. unfold_monad.
    cbn. rewrite Hnone. reflexivity.
  - pose proof (initialize_auth_client_static a w0 eq_refl) as Hinit.
    pose proof (pkce_grant_run E a _ w0 w0 (client_of cfg a)
                  Hinit eq_refl eq_refl) as Hrun.
    cbv zeta in Hrun. rewrite Hgrant in Hrun. rewrite Hrun.
    eexists _, _. split; [reflexivity|]. repeat split.
Qed.

(** X19. What a refresh stored, a later authenticator finds: after a
    successful refresh that left a credential issued for [endpoint], an
    authenticator built for [endpoint] in the resulting world starts with
    that credential. *)
Theorem pkce_rehydrates {CS} `{ClientConfigStore CS}
    (s s' : PKCEAuthenticator.t CS) (w w' : World) (c : Credentials)
    {CS'} (cfg_store : CS') (header_key : option str)
    (verify : option Verify) :
  PKCEAuthenticator.refresh_credentials E (s, w) = (Ok tt, (s', w')) ->
  _creds (super s') = Some c ->
  PKCEAuthenticator.__init__ (for_endpoint c) cfg_store header_key verify w'
  = (Ok (pkce_new (for_endpoint c) cfg_store header_key verify (Some c)),
     {| keyring := keyring w';
        trace := trace w' ++ [KeyringRetrieved (Some (for_endpoint c))] |}).
Proof.
  intros Hrun Hc.
  destruct (pkce_refresh_success E s s' w w' Hrun)
    as (s1 & w1 & client & _ & _
        & [[Hnone _] | (c0 & mid & Hc0 & _ & Hk & _)]); [congruence|].
  assert (c0 = c) by congruence. subst c0.
  unfold PKCEAuthenticator.__init__, KeyringStore.retrieve, pkce_new.
  unfold_monad. cbn. rewrite Hk. reflexivity.
Qed.
End PKCELogin.

(** ** The shape of the Basic-Auth header *)

Lemma b64encode_length (bs : bytes) :
  length (b64encode bs) = (4 * ((length bs + 2) / 3))%nat.
Proof.
  induction bs as [|a|a b|a b c r IH] using list_ind3; try reflexivity.
  cbn [b64encode length]. rewrite IH.
  replace (S (S (S (length r))) + 2)%nat with ((length r + 2) + 1 * 3)%nat
    by lia.
  rewrite Nat.div_add by discriminate. lia.
Qed.

(** X20. Whenever a header is built it is ASCII throughout, and its length
    is 6 plus four characters for every three octets, or part of three, of
    the UTF-8 form of [client_id + ":" + client_secret]. *)
Theorem basic_header_shape (client_id client_secret h : str) :
  ClientCredentialsAuthenticator.get_basic_authorization_header
    client_id client_secret = Ok h ->
  Forall (fun c => c < 0x80) h
  /\ exists raw,
       utf8_encode (client_id ++ lit ":" ++ client_secret) = Some raw
       /\ length h = (6 + 4 * ((length raw + 2) / 3))%nat.
Proof.
  unfold ClientCredentialsAuthenticator.get_basic_authorization_header.
  destruct (utf8_encode _) as [raw|]; [|discriminate].
  rewrite (utf8_decode_ascii _ (b64encode_ascii raw)).
  intros Heq. assert (Hh : h = lit "Basic " ++ b64encode raw) by congruence.
  subst h. clear Heq. split.
  - apply Forall_app. split; [|apply b64encode_ascii].
    assert (Hall : forallb (fun c => c <? 0x80) (lit "Basic ") = true)
      by (vm_compute; reflexivity).
    rewrite forallb_forall in Hall. apply Forall_forall.
    intros c Hc. apply N.ltb_lt, Hall, list_elem_of_In, Hc.
  - exists raw. split; [reflexivity|].
    rewrite length_app, b64encode_length. reflexivity.
Qed.

(** ** The further properties on concrete runs *)

Lemma command_refresh_then_fetch_witness :
  exists s' w',
    CommandAuthenticator.refresh_credentials env_cmd_ok (command0, world0)
    = (Ok tt, (s', w'))
    /\ s' = set_creds (Some (credentials_of env_cmd_ok (lit "tok"))) command0
    /\ Authenticator.fetch_grpc_call_auth_metadata (s', w')
       = (Ok (Some (lit "authorization", lit "Bearer tok")), (s', w')).
Proof.
  destruct (command_refresh_then_fetch env_cmd_ok command0 world0
              {| returncode := 0; stdout := lit " tok
"; stderr := [] |} eq_refl eq_refl)
    as (s' & w' & Hrun & Hs & _ & _ & Hfetch).
  exists s', w'. split; [exact Hrun|]. split; [exact Hs|].
  rewrite Hfetch. vm_compute. reflexivity.
Defined.

Lemma command_token_trimmed_witness :
  exists c,
    Authenticator._creds
      (CommandAuthenticator.super
         (CommandAuthenticator.refresh_credentials env_cmd_blank
            (command0, world0)).2.1) = Some c
    /\ trimmed (access_token c).
Proof.
  apply (command_token_trimmed env_cmd_blank command0 _ world0
           (CommandAuthenticator.refresh_credentials env_cmd_blank
              (command0, world0)).2.2).
  vm_compute. reflexivity.
Defined.

Lemma command_launch_error_propagates_witness :
  CommandAuthenticator.refresh_credentials env_cmd_missing (command0, world0)
  = (Raise (OtherError (lit "FileNotFoundError") (lit "echo")),
     (command0,
      {| keyring := keyring world0;
         trace := trace world0 ++
           [command_debug_line env_cmd_missing command0;
            SubprocessRun (CommandAuthenticator._cmd command0)] |})).
Proof.
  apply (command_launch_error_propagates env_cmd_missing command0 world0);
    [reflexivity | discriminate].
Defined.

Lemma command_nonzero_message_witness :
  (CommandAuthenticator.refresh_credentials env_cmd_fail (command0, world0)).1
  = Raise (AuthenticationError
             (lit "Problems refreshing token with command: "
              ++ str_CalledProcessError env_cmd_fail
                   (CommandAuthenticator._cmd command0) 1)).
Proof.
  rewrite (command_nonzero_message env_cmd_fail command0 world0
             {| returncode := 1; stdout := []; stderr := lit "denied" |}
             eq_refl ltac:(cbn; lia)).
  reflexivity.
Defined.

Lemma client_refresh_then_fetch_witness :
  exists s' w',
    ClientCredentialsAuthenticator.refresh_credentials env_idp_200
      (client0, world0) = (Ok tt, (s', w'))
    /\ Authenticator.fetch_grpc_call_auth_metadata (s', w')
       = (Ok (Some (lit "flyte-authorization", lit "Bearer t0k")), (s', w')).
Proof.
  destruct (client_refresh_then_fetch env_idp_200 client0 world0
              (lit "Basic YWJjOnh5eg==")
              {| status_code := 200; text := lit "{...}";
                 json := Some (JsonObject
                           {| json_access_token := Some (lit "t0k");
                              json_expires_in := Some 3600%Z |}) |}
              {| json_access_token := Some (lit "t0k");
                 json_expires_in := Some 3600%Z |}
              (lit "t0k") 3600%Z
              ltac:(vm_compute; reflexivity) eq_refl eq_refl eq_refl
              eq_refl eq_refl)
    as (s' & w' & Hrun & _ & _ & _ & Hfetch).
  exists s', w'. split; [exact Hrun|]. rewrite Hfetch.
  vm_compute. reflexivity.
Defined.

Lemma client_unusable_body_witness :
  (ClientCredentialsAuthenticator.refresh_credentials env_idp_list
     (client0, world0)
   = (Raise TypeError,
      (client0,
       {| keyring := keyring world0;
          trace := trace world0 ++
            [client_debug_line env_idp_list client0;
             token_request client0 (lit "Basic YWJjOnh5eg==")] |}))
   /\ (forall msg, TypeError <> AuthenticationError msg))
  /\ (ClientCredentialsAuthenticator.refresh_credentials env_idp_nokey
        (client0, world0)
      = (Raise (KeyError (lit "access_token")),
         (client0,
          {| keyring := keyring world0;
             trace := trace world0 ++
               [client_debug_line env_idp_nokey client0;
                token_request client0 (lit "Basic YWJjOnh5eg==")] |}))
      /\ (forall msg, KeyError (lit "access_token") <> AuthenticationError msg)).
Proof.
  split.
  - apply (client_unusable_body env_idp_list client0 world0
             (lit "Basic YWJjOnh5eg==")
             {| status_code := 200; text := lit "[]";
                json := Some JsonOther |});
      [vm_compute; reflexivity | reflexivity | reflexivity | reflexivity].
  - apply (client_unusable_body env_idp_nokey client0 world0
             (lit "Basic YWJjOnh5eg==")
             {| status_code := 200; text := lit "{}";
                json := Some (JsonObject
                                {| json_access_token := None;
                                   json_expires_in := Some 3600%Z |}) |});
      [vm_compute; reflexivity | reflexivity | reflexivity | reflexivity].
Defined.

Lemma client_transport_error_propagates_witness :
  ClientCredentialsAuthenticator.refresh_credentials env_idp_down
    (client0, world0)
  = (Raise (OtherError (lit "ConnectionError") (lit "unreachable")),
     (client0,
      {| keyring := keyring world0;
         trace := trace world0 ++
           [client_debug_line env_idp_down client0;
            token_request client0 (lit "Basic YWJjOnh5eg==")] |})).
Proof.
  apply (client_transport_error_propagates env_idp_down client0 world0
           (lit "Basic YWJjOnh5eg=="));
    [vm_compute; reflexivity | reflexivity].
Defined.

Lemma client_init_requires_id_and_secret_witness :
  ClientCredentialsAuthenticator.__init__ env_idp_200
    (lit "flyte.example.org") (Some (lit "abc")) (Some [])
    (StaticClientConfigStore.__init__ cfg0) None world0
  = (Raise (ValueError (lit "Client ID and Client SECRET both are required.")),
     world0).
Proof.
  apply client_init_requires_id_and_secret.
  right. right. right. reflexivity.
Defined.

Lemma client_init_from_config_witness :
  exists s,
    ClientCredentialsAuthenticator.__init__ env_idp_200
      (lit "flyte.example.org") (Some (lit "abc")) (Some (lit "xyz"))
      (StaticClientConfigStore.__init__ cfg0) (Some (lit "x-caller")) world0
    = (Ok s, world0)
    /\ Authenticator._header_key (ClientCredentialsAuthenticator.super s)
       = lit "flyte-authorization".
Proof.
  destruct (client_init_from_config env_idp_200 (lit "flyte.example.org")
              97 120 (lit "bc") (lit "yz")
              (StaticClientConfigStore.__init__ cfg0)
              (Some (lit "x-caller")) world0 world0 cfg0 eq_refl)
    as (s & Hinit & Hkey & _).
  exists s. split; [exact Hinit|]. rewrite Hkey. reflexivity.
Defined.

Lemma initialize_auth_client_once_witness :
  let st1 := (PKCEAuthenticator._initialize_auth_client env_pkce_ok
                (pkce0, world_pkce)).2 in
  PKCEAuthenticator._initialize_auth_client env_pkce_ok (st1.1, world0)
  = (Ok tt, (st1.1, world0)).
Proof.
  apply (initialize_auth_client_once env_pkce_ok pkce0 _ world_pkce
           world_pkce world0).
  reflexivity.
Defined.

Lemma pkce_refresh_rotates_witness :
  exists s1 client,
    PKCEAuthenticator.refresh_credentials env_pkce_ok (pkce0, world_pkce)
    = (Ok tt,
       (with_creds (Some new_creds) s1,
        {| keyring := <[for_endpoint new_creds := new_creds]>
                        (keyring world_pkce);
           trace := trace world_pkce ++
             [RefreshAccessToken client old_creds;
              KeyringStored new_creds] |})).
Proof.
  eexists _, _.
  eapply (pkce_refresh_rotates env_pkce_ok pkce0 _ world_pkce world_pkce
            old_creds new_creds); reflexivity.
Defined.

Lemma pkce_refresh_without_credential_witness :
  exists s' w',
    PKCEAuthenticator.refresh_credentials env_pkce_none (pkce0, world_pkce)
    = (Ok tt, (s', w'))
    /\ keyring w' = keyring world_pkce
    /\ Authenticator.fetch_grpc_call_auth_metadata (s', w')
       = (Ok None, (s', w')).
Proof.
  pose proof (pkce_refresh_without_credential env_pkce_none pkce0
                (pkce_configured cfg0 pkce0) world_pkce world_pkce
                old_creds (client_of cfg0 pkce0)) as Hpath.
  destruct Hpath as (s' & w' & Hrun & _ & Hk & _ & Hfetch);
    [vm_compute; reflexivity | reflexivity | reflexivity | reflexivity |].
  exists s', w'. repeat split; assumption.
Defined.

Lemma pkce_refresh_error_propagates_witness :
  exists s1 client,
    PKCEAuthenticator.refresh_credentials env_pkce_down (pkce0, world_pkce)
    = (Raise (OtherError (lit "ConnectionError") (lit "unreachable")),
       (s1, {| keyring := keyring world_pkce;
               trace := trace world_pkce ++
                 [RefreshAccessToken client old_creds] |}))
    /\ Authenticator._creds (PKCEAuthenticator.super s1) = Some old_creds.
Proof.
  eexists _, _.
  eapply (pkce_refresh_error_propagates env_pkce_down pkce0 _ world_pkce
            world_pkce old_creds);
    [reflexivity | reflexivity | reflexivity | reflexivity | discriminate].
Defined.

Lemma pkce_first_grant_witness :
  PKCEAuthenticator.refresh_credentials env_pkce_ok (pkce_fresh, world0)
  = (Ok tt,
     (with_creds (Some new_creds) (pkce_configured cfg0 pkce_fresh),
      {| keyring := <[for_endpoint new_creds := new_creds]> (keyring world0);
         trace := trace world0 ++
           [GetCredsFromRemote (client_of cfg0 pkce_fresh);
            KeyringStored new_creds] |}))
  /\ PKCEAuthenticator.refresh_credentials env_pkce_down (pkce_fresh, world0)
     = (Raise (OtherError (lit "ConnectionError") (lit "unreachable")),
        (pkce_configured cfg0 pkce_fresh,
         {| keyring := keyring world0;
            trace := trace world0 ++
              [GetCredsFromRemote (client_of cfg0 pkce_fresh)] |}))
  /\ Authenticator._header_key
       (PKCEAuthenticator.super (pkce_configured cfg0 pkce_fresh))
     = lit "flyte-authorization"
  /\ Authenticator._header_key (PKCEAuthenticator.super pkce_fresh)
     = lit "authorization"
  /\ Authenticator._creds
       (PKCEAuthenticator.super (pkce_configured cfg0 pkce_fresh)) = None.
Proof.
  pose proof (pkce_first_grant env_pkce_ok pkce_fresh
                (pkce_configured cfg0 pkce_fresh) world0 world0
                (client_of cfg0 pkce_fresh)) as Hok.
  pose proof (pkce_first_grant env_pkce_down pkce_fresh
                (pkce_configured cfg0 pkce_fresh) world0 world0
                (client_of cfg0 pkce_fresh)) as Hdown.
  destruct Hok as (_ & _ & _ & Hok);
    [vm_compute; reflexivity | reflexivity | reflexivity |].
  destruct Hdown as (Hnone & _ & Hkey & Hdown);
    [vm_compute; reflexivity | reflexivity | reflexivity |].
  destruct (Hkey eq_refl) as (cfg & Hcfg & Hhk).
  split; [exact Hok|]. split; [exact Hdown|].
  split; [reflexivity|]. split; [reflexivity|]. exact Hnone.
Defined.

Lemma pkce_first_login_witness :
  PKCEAuthenticator.__init__ (lit "flyte.example.org")
    (StaticClientConfigStore.__init__ cfg0) (Some (lit "x-caller")) None world0
  = (Ok (pkce_new (lit "flyte.example.org")
           (StaticClientConfigStore.__init__ cfg0)
           (Some (lit "x-caller")) None None),
     {| keyring := keyring world0;
        trace := trace world0 ++
          [KeyringRetrieved (Some (lit "flyte.example.org"))] |})
  /\ exists s' w',
       PKCEAuthenticator.refresh_credentials env_pkce_ok
         (pkce_new (lit "flyte.example.org")
            (StaticClientConfigStore.__init__ cfg0)
            (Some (lit "x-caller")) None None,
          {| keyring := keyring world0;
             trace := trace world0 ++
               [KeyringRetrieved (Some (lit "flyte.example.org"))] |})
       = (Ok tt, (s', w'))
       /\ Authenticator.fetch_grpc_call_auth_metadata (s', w')
          = (Ok (Some (lit "flyte-authorization", lit "Bearer rotated")),
             (s', w')).
Proof.
  destruct (pkce_first_login env_pkce_ok (lit "flyte.example.org") cfg0
              (Some (lit "x-caller")) None world0 new_creds
              (lookup_empty _) eq_refl)
    as (Hinit & s' & w' & Hrun & _ & _ & Hfetch).
  split; [exact Hinit|]. exists s', w'. split; [exact Hrun|].
  rewrite Hfetch. vm_compute. reflexivity.
Defined.

Lemma pkce_rehydrates_witness :
  let w' := (PKCEAuthenticator.refresh_credentials env_pkce_ok
               (pkce0, world_pkce)).2.2 in
  PKCEAuthenticator.__init__ (for_endpoint new_creds)
    (StaticClientConfigStore.__init__ cfg0) None None w'
  = (Ok (pkce_new (for_endpoint new_creds)
           (StaticClientConfigStore.__init__ cfg0) None None (Some new_creds)),
     {| keyring := keyring w';
        trace := trace w' ++
          [KeyringRetrieved (Some (for_endpoint new_creds))] |}).
Proof.
  apply (pkce_rehydrates env_pkce_ok pkce0
           (PKCEAuthenticator.refresh_credentials env_pkce_ok
              (pkce0, world_pkce)).2.1 world_pkce);
    vm_compute; reflexivity.
Defined.

Lemma basic_header_shape_witness :
  Forall (fun c => c < 0x80) (lit "Basic YWJjOnh5eg==")
  /\ exists raw,
       utf8_encode (lit "abc" ++ lit ":" ++ lit "xyz") = Some raw
       /\ length (lit "Basic YWJjOnh5eg==")
          = (6 + 4 * ((length raw + 2) / 3))%nat.
Proof.
  apply (basic_header_shape (lit "abc") (lit "xyz")).
  vm_compute. reflexivity.
Defined.
